(** * passport-cerbere: ticket validation, attribute normalisation, retry policy

    A shallow embedding of the JavaScript sources

      - [part_000]       the Cerbere client on fast-xml-parser (SOAP/SAML answers),
      - [lib/cerbere.js] the Cerbere client on cheerio (tagged-element answers),
      - [lib/strategy.js] and [part_001], the passport strategy,

    followed by the properties established about them.

    Conventions of the embedding.
      - A JavaScript value is a [jsval].  A number is a rational, NaN or an
        infinity: every finite double is a rational, and the two zeros are
        one (no operation of the sources tells them apart).  A string is a
        sequence of code units below 256.
      - An object used as a dictionary (the attribute bag, the [name] member of a
        profile, the own properties of a client instance) is a [gmap] of its own
        properties; members inherited from [Object.prototype] are not part of
        the model.
      - Code that can throw returns a [completion]; the callbacks and the
        passport actions a call performs are returned as data.
      - What the sources call and do not define (functions of Node and of npm
        packages, the decimal text of a number) is a member of the class
        [Platform].
      - The events that Node delivers to the listeners of a request are an
        input: a list of [event]s. *)

From Stdlib Require Import ZArith QArith Qround String Ascii List Lia.
From stdpp Require Import gmap strings list fin_maps pretty.

Open Scope Z_scope.
Open Scope string_scope.

(** ** JavaScript values *)

Inductive number : Type :=
  | Finite (q : Q)
  | NaN
  | Infinity (negative : bool).

(** The number of an integer. *)
Definition integer (n : Z) : number := Finite (inject_Z n).
Coercion integer : Z >-> number.

#[warnings="-register-all"]
Inductive jsval : Type :=
  | JUndefined
  | JNull
  | JBool (b : bool)
  | JNumber (x : number)
  | JString (s : string)
  | JArray (items : list jsval)
  | JObject (members : list (string * jsval)).

Inductive error : Type :=
  | TypeError (msg : string)
  | Error (msg : string).

(** Normal or abrupt completion of a piece of code. *)
Inductive completion (A : Type) : Type :=
  | Normal (a : A)
  | Throw (e : error).
Arguments Normal {A} a.
Arguments Throw {A} e.

#[global] Instance completion_ret : MRet completion := @Normal.
#[global] Instance completion_bind : MBind completion := fun A B f m =>
  match m with
  | Normal a => f a
  | Throw e => Throw e
  end.

(** The double quote character, for the literals of the sources that hold one. *)
Definition dquote : string := String "034" EmptyString.

(** [ToBoolean]. *)
Definition truthy (v : jsval) : bool :=
  match v with
  | JUndefined | JNull => false
  | JBool b => b
  | JNumber (Finite q) => negb (Qeq_bool q 0)
  | JNumber NaN => false
  | JNumber (Infinity _) => true
  | JString s => negb (bool_decide (s = EmptyString))
  | JArray _ | JObject _ => true
  end.

(** [a || b]. *)
Definition js_or (a b : jsval) : jsval := if truthy a then a else b.

Fixpoint own_property (k : string) (members : list (string * jsval)) : option jsval :=
  match members with
  | [] => None
  | (k', v) :: members' =>
      if bool_decide (k = k') then Some v else own_property k members'
  end.

Definition cannot_read (k : string) : error :=
  TypeError ("Cannot read properties of undefined (reading '" ++ k ++ "')").

Definition cannot_read_null (k : string) : error :=
  TypeError ("Cannot read properties of null (reading '" ++ k ++ "')").

(** [o[k]] and [o.k] for a property name [k] that is not an array index (all
    the names the sources write out are of this kind). *)
Definition get (o : jsval) (k : string) : completion jsval :=
  match o with
  | JUndefined => Throw (cannot_read k)
  | JNull => Throw (cannot_read_null k)
  | JObject members => Normal (default JUndefined (own_property k members))
  | JArray items =>
      Normal (if bool_decide (k = "length") then JNumber (Z.of_nat (length items))
              else JUndefined)
  | JString s =>
      Normal (if bool_decide (k = "length") then JNumber (Z.of_nat (String.length s))
              else JUndefined)
  | JBool _ | JNumber _ => Normal JUndefined
  end.

(** [o[i]] for a number [i]. *)
Definition get_index (o : jsval) (i : nat) : completion jsval :=
  match o with
  | JUndefined => Throw (cannot_read (pretty (Z.of_nat i)))
  | JNull => Throw (cannot_read_null (pretty (Z.of_nat i)))
  | JObject members =>
      Normal (default JUndefined (own_property (pretty (Z.of_nat i)) members))
  | JArray items => Normal (default JUndefined (items !! i))
  | JString s =>
      Normal (match String.get i s with
              | Some c => JString (String c EmptyString)
              | None => JUndefined
              end)
  | JBool _ | JNumber _ => Normal JUndefined
  end.

(** [o.hasOwnProperty(k)], [k] not an array index. *)
Definition hasOwnProperty (o : jsval) (k : string) : completion bool :=
  match o with
  | JUndefined => Throw (cannot_read "hasOwnProperty")
  | JNull => Throw (cannot_read_null "hasOwnProperty")
  | JObject members => Normal (bool_decide (is_Some (own_property k members)))
  | JArray _ | JString _ => Normal (bool_decide (k = "length"))
  | JBool _ | JNumber _ => Normal false
  end.

(** Reading a key of a dictionary object: the own property, else [undefined]. *)
Definition js_get (o : gmap string jsval) (k : string) : jsval :=
  default JUndefined (o !! k).

(** [attributes[key] = v] on an object literal.  The name [__proto__] is the
    accessor that [Object.prototype] gives every object: assigning to it adds
    no own property. *)
Definition assign (attributes : gmap string jsval) (key : string) (v : jsval)
    : gmap string jsval :=
  if bool_decide (key = "__proto__") then attributes else <[key := v]> attributes.

(** [x == y] on numbers. *)
Definition number_eqb (x y : number) : bool :=
  match x, y with
  | Finite p, Finite q => Qeq_bool p q
  | Infinity a, Infinity b => Bool.eqb a b
  | _, _ => false
  end.

(** How many of [i = 0, 1, 2, ...] are below a number ([i < x]); [None] when
    all of them are. *)
Definition count_below (x : number) : option nat :=
  match x with
  | Finite q => Some (Z.to_nat (Qceiling q))
  | NaN | Infinity true => Some O
  | Infinity false => None
  end.

(** The integer that a rational is, when it is one below 2^53 in absolute
    value. *)
Definition safe_integer (q : Q) : option Z :=
  let r := Qred q in
  if Pos.eqb (Qden r) 1 && Z.ltb (Z.abs (Qnum r)) (2 ^ 53) then Some (Qnum r) else None.

(** ** What the platform provides

    What the sources call and do not define: functions of the language, of
    Node and of npm packages. *)
Class Platform : Type := {
  (** [ToString] on a finite number that is no integer below 2^53: the
      shortest decimal text that reads back as the same double, in exponent
      form from 1e21 on. *)
  NumberToString : Q -> string;
  (** [ToNumber] on a string. *)
  StringToNumber : string -> number;
  (** [url.parse(u, parseQueryString)] for a string [u], the resulting Url
      object. *)
  url_parse : string -> bool -> jsval;
  (** The TypeError that [url.parse] throws for an argument that is no
      string (its text names the type of the argument, and differs between
      the versions of Node). *)
  url_type_error : jsval -> error;
  (** [url.format(parts)]. *)
  url_format : jsval -> string;
  encodeURIComponent : string -> string;
  (** [fxp.parse(xml, options, true)]: the parsed tree, or the error the
      validation of the document raises. *)
  fxp_parse : string -> error + jsval
}.

Section Coercions.
Context `{Platform}.

(** [ToString] on a number. *)
Definition number_to_string (x : number) : string :=
  match x with
  | Finite q =>
      match safe_integer q with
      | Some n => pretty n
      | None => NumberToString q
      end
  | NaN => "NaN"
  | Infinity false => "Infinity"
  | Infinity true => "-Infinity"
  end.

(** [ToString]; an object is one without [toString] and [valueOf] of its own. *)
Fixpoint to_string (v : jsval) : string :=
  match v with
  | JUndefined => "undefined"
  | JNull => "null"
  | JBool true => "true"
  | JBool false => "false"
  | JNumber x => number_to_string x
  | JString s => s
  | JArray items =>
      (fix join (l : list jsval) : string :=
         match l with
         | [] => EmptyString
         | x :: l' =>
             (match x with
              | JUndefined | JNull => EmptyString
              | _ => to_string x
              end)
             ++ match l' with
                | [] => EmptyString
                | _ :: _ => "," ++ join l'
                end
         end) items
  | JObject _ => "[object Object]"
  end.

(** [ToNumber]; objects and arrays go through their string form. *)
Definition to_number (v : jsval) : number :=
  match v with
  | JUndefined => NaN
  | JNull => 0
  | JBool b => if b then 1 else 0
  | JNumber x => x
  | JString s => StringToNumber s
  | JArray _ | JObject _ => StringToNumber (to_string v)
  end.

(** [v == n] for a number [n]. *)
Definition loose_eq_number (v : jsval) (n : Z) : bool :=
  match v with
  | JUndefined | JNull => false
  | _ => number_eqb (to_number v) n
  end.

(** [v == s] for a string [s]. *)
Definition loose_eq_string (v : jsval) (s : string) : bool :=
  match v with
  | JUndefined | JNull => false
  | JBool _ | JNumber _ => number_eqb (to_number v) (StringToNumber s)
  | JString _ | JArray _ | JObject _ => bool_decide (to_string v = s)
  end.
End Coercions.

(** [util.format(fmt, ...args)] for string arguments: [%s] takes the next
    argument as it is, [%%] is a percent sign, arguments left over are appended
    after a space.  (The template of the sources has no other directive.) *)
Fixpoint util_format (fmt : string) (args : list string) : string :=
  match fmt with
  | EmptyString => String.concat EmptyString (map (fun a => " " ++ a) args)
  | String "%" (String "s" rest) =>
      match args with
      | a :: args' => a ++ util_format rest args'
      | [] => "%s" ++ util_format rest []
      end
  | String "%" (String "%" rest) => "%" ++ util_format rest args
  | String c rest => String c (util_format rest args)
  end.

(** The request handed to [https.request]. *)
Record request_options : Type := {
  ro_host : jsval;
  ro_port : jsval;
  ro_path : string;
  ro_method : string;
  ro_headers : list (string * string)
}.

(** What [validate] hands to [https.request], and what it writes to the
    request. *)
Record sent : Type := { sent_options : request_options; sent_body : string }.

(** The fourth argument of a successful callback. *)
Record extended : Type := {
  ext_username : jsval;
  ext_attributes : gmap string jsval;
  ext_ticket : string
}.

(** The calls of [callback(err, auth_status, username, extended)] the clients make. *)
Inductive callback : Type :=
  | cb_error (err : error)                              (* callback(e) *)
  | cb_failure (err : error)                            (* callback(err, false) *)
  | cb_success (username : jsval) (ext : extended).     (* callback(undefined, true, username, extended) *)

(** The events that Node delivers to the listeners [validate] registers:
    [error] on the request, and on the response [error], [data] and [end]. *)
Inductive event : Type :=
  | req_error (err : error)
  | res_error (e : error)
  | res_data (chunk : string)
  | res_end.

(** What a listener does: a call of the callback, [req.connection.destroy()],
    [req.abort()]. *)
Inductive effect : Type :=
  | call (cb : callback)
  | destroy_connection
  | abort_request.

(** The effects of a series of events, in order, and the exception of a
    listener that ends it, if any. *)
Record run : Type := { effects : list effect; fault : option error }.

(** The text of the SOAP request, shared by both clients. *)
Definition soap_template : string :=
  "<SOAP-ENV:Envelope xmlns:SOAP-ENV=" ++ dquote
  ++ "http://schemas.xmlsoap.org/soap/envelope/" ++ dquote
  ++ "><SOAP-ENV:Header/><SOAP-ENV:Body><samlp:Request xmlns:samlp=" ++ dquote
  ++ "urn:oasis:names:tc:SAML:1.0:protocol" ++ dquote
  ++ " MajorVersion=" ++ dquote ++ "1" ++ dquote
  ++ " MinorVersion=" ++ dquote ++ "1" ++ dquote
  ++ " RequestID=" ++ dquote ++ "%s" ++ dquote
  ++ " IssueInstant=" ++ dquote ++ "%s" ++ dquote
  ++ "><samlp:AssertionArtifact>%s</samlp:AssertionArtifact></samlp:Request></SOAP-ENV:Body></SOAP-ENV:Envelope>".

(** [soapEnvelope] of [validate]; [requestId] is [uuid.v4()] and [issueInstant]
    is [new Date().toISOString()]. *)
Definition soapEnvelope (requestId issueInstant ticket : string) : string :=
  util_format soap_template [requestId; issueInstant; ticket].

Definition request_headers : list (string * string) :=
  [ ("soapaction", "http://www.oasis-open.org/committees/security");
    ("content-type", "text/xml; charset=utf-8");
    ("accept", "text/xml");
    ("connection", "keep-alive");
    ("cache-control", "no-cache");
    ("pragma", "no-cache") ].

(** ** The client of [part_000] (fast-xml-parser, SOAP/SAML answers) *)
Module CerbereFxp.
Section Client.
Context `{Platform}.

(** The constructor; the result holds the own properties of the instance. *)
Definition Cerbere (options : jsval) : completion (gmap string jsval) :=
  let options := js_or options (JObject []) in
  url ← get options "url";
  if negb (truthy url) then Throw (Error "Required Cerbere option `url` missing.") else
  cerbere_url ← match url with
                 | JString u => Normal (url_parse u false)
                 | _ => Throw (url_type_error url)
                 end;
  protocol ← get cerbere_url "protocol";
  if negb (loose_eq_string protocol "https:")
  then Throw (Error "Cerbere url supports only https protocol.") else
  hostname ← get cerbere_url "hostname";
  if negb (truthy hostname)
  then Throw (Error "Option `url` must be a valid url like: https://authentification.din.developpement-durable.gouv.fr/cas/public")
  else
  pathname ← get cerbere_url "pathname";
  Normal (<["base_path" := pathname]> (<["cerbere_url" := cerbere_url]> ∅)).

(** The own properties of an object, counted. *)
Definition members_count (o : jsval) : nat :=
  match o with
  | JObject members => length members
  | _ => O
  end.

(** The loop of [parseAttributes], [count] iterations from index [i]. *)
Fixpoint parseAttributes_loop (elemAttributes : jsval) (count i : nat)
    (attributes : gmap string jsval) : completion (gmap string jsval) :=
  match count with
  | O => Normal attributes
  | S count' =>
      elemAttribute ← get_index elemAttributes i;
      has ← hasOwnProperty elemAttribute "@_AttributeName";
      attributes' ←
        (if has : bool then
           name ← get elemAttribute "@_AttributeName";
           value ← get elemAttribute "AttributeValue";
           text ← get value "#text";
           Normal (assign attributes (to_string name) text)
         else Normal attributes);
      parseAttributes_loop elemAttributes count' (S i) attributes'
  end.

(** The loop runs for [i = 0, 1, ...] as long as [i < elemAttributes.length]:
    as many times as the length says, and not at all when the length is no
    number.  Under an infinite length (an object with [length] of its own)
    nothing but an exception ends the loop; one comes at the first index
    that is no own property, and an object has such an index among the
    first ones, one more than it has members. *)
Definition parseAttributes (elemAttributes : jsval) : completion (gmap string jsval) :=
  len ← get elemAttributes "length";
  let count := match count_below (to_number len) with
               | Some n => n
               | None => S (members_count elemAttributes)
               end in
  parseAttributes_loop elemAttributes count 0 ∅.

(** [['ns2:Success'].includes(v)]. *)
Definition is_success (v : jsval) : bool :=
  match v with
  | JString s => bool_decide (s = "ns2:Success")
  | _ => false
  end.

(** The work of the [end] listener once the document is parsed. *)
Definition dispatch (jsonResponse : jsval) (ticket : string) : completion callback :=
  envelope ← get jsonResponse "Envelope";
  body ← get envelope "Body";
  elemResponse ← get body "Response";
  status ← get elemResponse "Status";
  elemStatusCode ← get status "StatusCode";
  value ← get elemStatusCode "@_Value";
  if is_success value then
    assertions ← get elemResponse "Assertion";
    assertion ← get_index assertions 0;
    elemAttributeStatement ← get assertion "AttributeStatement";
    subject ← get elemAttributeStatement "Subject";
    nameIdentifier ← get subject "NameIdentifier";
    userId ← get nameIdentifier "#text";
    if negb (truthy userId) then Normal (cb_failure (Error "No userId?")) else
    elemAttributes ← get elemAttributeStatement "Attribute";
    attributes ← parseAttributes elemAttributes;
    Normal (cb_success userId
              {| ext_username := userId; ext_attributes := attributes; ext_ticket := ticket |})
  else
    code ← get elemStatusCode "@_Value";
    text ← get elemStatusCode "#text";
    Normal (cb_failure
              (Error ("Validation failed [" ++ to_string code ++ "]: " ++ to_string text))).

(** The [end] listener of the response: parse, then dispatch. *)
Definition on_end (response : string) (ticket : string) : completion callback :=
  match fxp_parse response with
  | inl error => Normal (cb_failure error)
  | inr jsonResponse => dispatch jsonResponse ticket
  end.

(** The listeners of [validate]: what one event makes them do, and the text
    of the response after it; [response] is the text received before. *)
Definition listener (ticket : string) (response : string) (ev : event)
    : completion (list effect * string) :=
  match ev with
  | req_error err => Normal ([call (cb_error err); abort_request], response)
  | res_error e => Normal ([call (cb_error e)], response)
  | res_data chunk =>
      let response := response ++ chunk in
      Normal (if Z.ltb 1000000 (Z.of_nat (String.length response))
              then [destroy_connection] else [],
              response)
  | res_end => cb ← on_end response ticket; Normal ([call cb], response)
  end.

(** The listeners over a series of events.  An exception of a listener is
    caught by nobody: it ends the series. *)
Fixpoint deliver (ticket : string) (response : string) (events : list event) : run :=
  match events with
  | [] => {| effects := []; fault := None |}
  | ev :: events' =>
      match listener ticket response ev with
      | Throw e => {| effects := []; fault := Some e |}
      | Normal (done, response') =>
          let rest := deliver ticket response' events' in
          {| effects := (done ++ effects rest)%list; fault := fault rest |}
      end
  end.

(** [validate] up to [req.end()]: the request it sends.  What happens
    afterwards is up to the events: [deliver ticket EmptyString events]. *)
Definition validate (this : gmap string jsval) (ticket service : string)
    (requestId issueInstant : string) : completion sent :=
  let validate_path := "/samlValidate" in
  let query := JObject [("TARGET", JString service)] in
  let queryPath :=
    url_format (JObject [("pathname",
                          JString (to_string (js_get this "base_path") ++ validate_path));
                         ("query", query)]) in
  let envelope := soapEnvelope requestId issueInstant ticket in
  host ← get (js_get this "cerbere_url") "hostname";
  port ← get (js_get this "cerbere_url") "port";
  let options := {| ro_host := host; ro_port := port; ro_path := queryPath;
                    ro_method := "POST"; ro_headers := request_headers |} in
  Normal {| sent_options := options; sent_body := envelope |}.
End Client.
End CerbereFxp.

(** ** The client of [lib/cerbere.js] (cheerio, tagged-element answers) *)
Module CerbereCheerio.
Section Client.
Context `{Platform}.

Definition Cerbere (options : jsval) : completion (gmap string jsval) :=
  let options := js_or options (JObject []) in
  url ← get options "url";
  if negb (truthy url) then Throw (Error "Required Cerbere option `url` missing.") else
  cerbere_url ← match url with
                 | JString u => Normal (url_parse u false)
                 | _ => Throw (url_type_error url)
                 end;
  protocol ← get cerbere_url "protocol";
  if negb (loose_eq_string protocol "https:")
  then Throw (Error "Cerbere url supports only https protocol.") else
  hostname ← get cerbere_url "hostname";
  if negb (truthy hostname)
  then Throw (Error "Option `url` must be a valid url like: https://authentification.din.developpement-durable.gouv.fr/cas/public")
  else
  pathname ← get cerbere_url "pathname";
  Normal (<["base_path" := pathname]> (<["cerbere_url" := cerbere_url]> ∅)).

(** [validate] up to the call of [https.request]; [send] stands for that call
    and all that follows it (the listeners on the response, written with
    cheerio, and the calls of [callback] they make). *)
Definition validate (this : gmap string jsval) (ticket service : string)
    (requestId issueInstant : string)
    (send : request_options -> string -> completion (list callback))
    : completion (list callback) :=
  let validate_path := "/samlValidate" in
  let query := JObject [("TARGET", JString service)] in
  let queryPath :=
    url_format (JObject [("pathname",
                          JString (to_string (js_get this "base_path") ++ "/" ++ validate_path));
                         ("query", query)]) in
  let envelope := soapEnvelope requestId issueInstant ticket in
  host ← get (js_get this "cerbereURL") "hostname";
  port ← get (js_get this "cerbereURL") "port";
  let options := {| ro_host := host; ro_port := port; ro_path := queryPath;
                    ro_method := "POST"; ro_headers := request_headers |} in
  send options envelope.
End Client.
End CerbereCheerio.

(** ** Regular expressions of the retry redirect

    A pattern is given by its match at the start of a string: the text that
    replaces the match, and what follows the match. *)

Definition is_digit (c : ascii) : bool :=
  let n := nat_of_ascii c in Nat.leb 48 n && Nat.leb n 57.

(** [\w] *)
Definition is_word (c : ascii) : bool :=
  let n := nat_of_ascii c in
  is_digit c || (Nat.leb 65 n && Nat.leb n 90) || (Nat.leb 97 n && Nat.leb n 122)
  || Nat.eqb n 95.

(** [[\w.-]] *)
Definition is_ticket_char (c : ascii) : bool :=
  is_word c || Ascii.eqb c "." || Ascii.eqb c "-".

Fixpoint strip_prefix (p s : string) : option string :=
  match p with
  | EmptyString => Some s
  | String a p' =>
      match s with
      | String b s' => if Ascii.eqb a b then strip_prefix p' s' else None
      | EmptyString => None
      end
  end.

(** The longest prefix of characters of a class, and the rest. *)
Fixpoint span (f : ascii -> bool) (s : string) : string * string :=
  match s with
  | String c s' =>
      if f c then (let (a, b) := span f s' in (String c a, b)) else (EmptyString, s)
  | EmptyString => (EmptyString, EmptyString)
  end.

(** [s.replace(re, replacement)] for a pattern without the [g] flag: the
    leftmost match is replaced. *)
Fixpoint replace_first (match_here : string -> option (string * string)) (s : string)
    : string :=
  match match_here s with
  | Some (replacement, rest) => replacement ++ rest
  | None =>
      match s with
      | EmptyString => EmptyString
      | String c s' => String c (replace_first match_here s')
      end
  end.

(** [/_cas_retry=\d+&?/], replaced by the empty string. *)
Definition cas_retry_here (s : string) : option (string * string) :=
  match strip_prefix "_cas_retry=" s with
  | Some rest =>
      let (digits, rest') := span is_digit rest in
      match digits with
      | EmptyString => None
      | String _ _ =>
          Some (EmptyString,
                match rest' with
                | String "&" r => r
                | _ => rest'
                end)
      end
  | None => None
  end.

(** [/([?&])ticket=[\w.-]+/], replaced by ['$1_cas_retry=' + token]. *)
Definition ticket_here (token : string) (s : string) : option (string * string) :=
  match s with
  | String c s1 =>
      if Ascii.eqb c "?" || Ascii.eqb c "&" then
        match strip_prefix "ticket=" s1 with
        | Some rest =>
            let (ticket, rest') := span is_ticket_char rest in
            match ticket with
            | EmptyString => None
            | String _ _ => Some (String c ("_cas_retry=" ++ token), rest')
            end
        | None => None
        end
      else None
  | EmptyString => None
  end.

(** ** The strategy of [lib/strategy.js] and [part_001] *)

(** [Math.round]: the nearest integer, a half goes up. *)
Definition Math_round (x : Q) : Z := Qfloor (x + (1 # 2)).

(** [Math.round(date.getTime() / 60000)] at the time [now], in milliseconds.
    The division is the exact one: a quotient of an integer by 60000 that is
    not a rounding boundary lies at least 1/60000 from the next, more than
    half the distance between neighbouring doubles below 2^38, so that the
    double the code divides into rounds to the same integer for every time a
    [Date] can hold. *)
Definition retry_token (now : Z) : Z := Math_round (inject_Z now / inject_Z 60000).

(** An entry [{key, type}] of the [emails] and [telephones] maps. *)
Record KeyType : Type := { kt_key : string; kt_type : jsval }.

Record AdresseKey : Type := {
  ak_street : string; ak_town : string; ak_streetcode : string; ak_country : string
}.
Record AdresseMap : Type := { am_key : AdresseKey; am_type : jsval }.

Record OrganizationKey : Type := { ok_code : string; ok_name : string }.
Record OrganizationMap : Type := { om_key : OrganizationKey; om_type : jsval }.

(** The [propertyMap] option: which attribute feeds which member of the
    profile.  The members have the types the README gives them: attribute
    keys are strings, the list sections are arrays of entries (the branch of
    [authenticate] for an array under [provider] or [id] is therefore not
    part of the model).  A section that the configuration leaves out is
    [None]; the own properties that are no key of the default profile are
    [pm_others], in the order of enumeration. *)
Record PropertyMap : Type := {
  pm_provider : option string;
  pm_id : option string;
  pm_name : option (list (string * string));
  pm_emails : option (list KeyType);
  pm_telephones : option (list KeyType);
  pm_adresses : option (list AdresseMap);
  pm_organizations : option (list OrganizationMap);
  pm_others : list (string * string)
}.

(** Entries [{value, type}] of [profile.emails] and [profile.telephones]. *)
Record ValueType : Type := { e_value : jsval; e_type : jsval }.

Record Adresse : Type := {
  a_street : jsval; a_town : jsval; a_streetcode : jsval; a_country : jsval;
  a_type : jsval
}.

Record Organization : Type := { o_code : jsval; o_name : jsval; o_type : jsval }.

Record Profile : Type := {
  p_provider : jsval;
  p_id : jsval;
  p_name : gmap string jsval;
  p_emails : list ValueType;
  p_telephones : list ValueType;
  p_adresses : list Adresse;
  p_organizations : list Organization;
  (** the members added after the loop over the default profile *)
  p_others : gmap string jsval
}.

Record Strategy : Type := {
  st_url : string;
  st_service : string;
  st_propertyMap : option PropertyMap;
  st_passReqToCallback : bool
}.

(** The request, as Express hands it over: [query] is the parsed query string. *)
Record Request : Type := {
  req_originalUrl : option string;
  req_url : string;
  req_protocol : jsval;
  req_headers : gmap string jsval;
  req_query : gmap string jsval
}.

(** What passport is asked to do. *)
Inductive action : Type :=
  | redirect (url : string) (status : Z)
  | fail (info : error)
  | verify (req : option Request) (username : jsval) (profile : Profile).

(** The actions of a call, in order, and the exception it ends with, if any. *)
Record outcome : Type := { performed : list action; thrown : option error }.

Definition profile_keys : list string :=
  ["provider"; "id"; "name"; "emails"; "telephones"; "adresses"; "organizations"].

Definition default_name : gmap string jsval :=
  <["middleName" := JNull]> (<["givenName" := JNull]>
    (<["familyName" := JNull]> (<["civilite" := JNull]> ∅))).

(** The members of an absent section cannot be read. *)
Definition section {A : Type} (s : string) (o : option A) : completion A :=
  match o with
  | Some a => Normal a
  | None => Throw (cannot_read s)
  end.

(** [req.originalUrl || req.url] *)
Definition request_url (req : Request) : string :=
  match req_originalUrl req with
  | Some (String c u) => String c u
  | _ => req_url req
  end.

Section Normalize.
Context `{Platform}.

(** The body of the loop over [propertyMap.name]. *)
Definition map_name (names : list (string * string))
    (st : gmap string jsval * gmap string jsval)
    : gmap string jsval * gmap string jsval :=
  fold_left
    (fun '(name, attributes) '(nameKey, key) =>
       (<[nameKey := js_get attributes key]> name, delete nameKey attributes))
    names st.

Definition displayName (name : gmap string jsval) : jsval :=
  JString (to_string (js_get name "civilite") ++ " "
           ++ to_string (js_get name "givenName") ++ " "
           ++ to_string (js_get name "familyName")).

Definition map_emails (emails : list KeyType)
    (st : list ValueType * gmap string jsval) : list ValueType * gmap string jsval :=
  fold_left
    (fun '(acc, attributes) email =>
       ((acc ++ [{| e_value := js_get attributes (kt_key email); e_type := kt_type email |}])%list,
        delete (kt_key email) attributes))
    emails st.

Definition map_telephones (telephones : list KeyType)
    (st : list ValueType * gmap string jsval) : list ValueType * gmap string jsval :=
  fold_left
    (fun '(acc, attributes) telephone =>
       ((acc ++ [{| e_value := js_get attributes (kt_key telephone);
                    e_type := kt_type telephone |}])%list,
        delete (to_string (kt_type telephone)) attributes))
    telephones st.

Definition map_adresses (attributes : gmap string jsval) (adresses : list AdresseMap)
    (acc : list Adresse) : list Adresse :=
  fold_left
    (fun acc adresse =>
       (acc ++ [{| a_street := js_get attributes (ak_street (am_key adresse));
                   a_town := js_get attributes (ak_town (am_key adresse));
                   a_streetcode := js_get attributes (ak_streetcode (am_key adresse));
                   a_country := js_get attributes (ak_country (am_key adresse));
                   a_type := am_type adresse |}])%list)
    adresses acc.

Definition map_organizations (attributes : gmap string jsval)
    (organizations : list OrganizationMap) (acc : list Organization) : list Organization :=
  fold_left
    (fun acc organization =>
       (acc ++ [{| o_code := js_get attributes (ok_code (om_key organization));
                   o_name := js_get attributes (ok_name (om_key organization));
                   o_type := om_type organization |}])%list)
    organizations acc.

(** The loop that adds the properties of the map the default profile lacks. *)
Definition map_others (attributes : gmap string jsval) (others : list (string * string))
    (acc : gmap string jsval) : gmap string jsval :=
  fold_left
    (fun acc '(property, key) =>
       if bool_decide (property ∈ profile_keys) || bool_decide (is_Some (acc !! property))
       then acc
       else <[property := js_get attributes key]> acc)
    others acc.

(** The profile built from the attributes of a validated ticket; [id0] is the
    [id] the profile starts with. *)
Definition normalize (propertyMap : PropertyMap) (id0 : jsval)
    (attributes : gmap string jsval) : completion Profile :=
  (* key = provider, id *)
  let provider := match pm_provider propertyMap with
                  | Some key => js_get attributes key
                  | None => JString "Cerbere"
                  end in
  let id := match pm_id propertyMap with
            | Some key => js_get attributes key
            | None => id0
            end in
  (* key = name *)
  let '(name, attributes) :=
    map_name (default [] (pm_name propertyMap)) (default_name, attributes) in
  let name := <["displayName" := displayName name]> name in
  (* key = emails, telephones, adresses, organizations *)
  emails ← section "forEach" (pm_emails propertyMap);
  let '(emails, attributes) := map_emails emails ([], attributes) in
  telephones ← section "forEach" (pm_telephones propertyMap);
  let '(telephones, attributes) := map_telephones telephones ([], attributes) in
  adresses ← section "forEach" (pm_adresses propertyMap);
  let adresses := map_adresses attributes adresses [] in
  organizations ← section "forEach" (pm_organizations propertyMap);
  let organizations := map_organizations attributes organizations [] in
  (* additional properties *)
  let others := map_others attributes (pm_others propertyMap) ∅ in
  Normal {| p_provider := provider; p_id := id; p_name := name; p_emails := emails;
            p_telephones := telephones; p_adresses := adresses;
            p_organizations := organizations; p_others := others |}.
End Normalize.

Module CerbereStrategy.
Section Authenticate.
Context `{Platform}.

(** The target of the retry redirect. *)
Definition retry_url (url : string) (token : Z) : string :=
  replace_first (ticket_here (to_string (JNumber token)))
    (replace_first cas_retry_here url).

(** The branch of a failed validation. *)
Definition retry (req : Request) (now : Z) (err : error) : list action :=
  let token := retry_token now in
  if negb (loose_eq_number (js_get (req_query req) "_cas_retry") token)
  then [redirect (retry_url (request_url req) token) 307]
  else [fail err].

(** The ticket of the request and the service URL. *)
Definition ticket_and_service (req : Request) : completion (jsval * string) :=
  let reqURL := url_parse (request_url req) true in
  query ← get reqURL "query";
  ticket ← get query "ticket";
  host ← get reqURL "host";
  pathname ← get reqURL "pathname";
  let header := js_get (req_headers req) in
  Normal (ticket,
          url_format (JObject [
            ("protocol", js_or (js_or (js_or (header "x-forwarded-proto")
                                             (header "x-proxied-protocol"))
                                      (req_protocol req))
                               (JString "http"));
            ("host", js_or (js_or (header "x-forwarded-host") (header "host")) host);
            ("pathname", js_or (header "x-proxied-request-uri") pathname)])).

(** [authenticate] of [lib/strategy.js]; [validated] is the call of the
    callback that [self.cerbere.validate] makes. *)
Definition authenticate (self : Strategy) (req : Request) (now : Z)
    (validated : callback) : outcome :=
  match ticket_and_service req with
  | Throw e => {| performed := []; thrown := Some e |}
  | Normal (ticket, service) =>
      if negb (truthy ticket) then
        {| performed :=
             [redirect (st_url self ++ "/login?service=" ++ encodeURIComponent service) 307];
           thrown := None |}
      else
        match validated with
        | cb_error err | cb_failure err =>
            {| performed := retry req now err; thrown := None |}
        | cb_success username extended =>
            let attributes := ext_attributes extended in
            match
              propertyMap ← section "hasOwnProperty" (st_propertyMap self);
              normalize propertyMap (js_or (js_get attributes "id") username) attributes
            with
            | Throw e => {| performed := []; thrown := Some e |}
            | Normal profile =>
                {| performed :=
                     [verify (if st_passReqToCallback self then Some req else None)
                             username profile];
                   thrown := None |}
            end
        end
  end.

(** [authenticate] of [part_001]; [login] is [self.cerbere.login] and
    [resultat] the settlement of the promise [self.cerbere.validate(ticket)]:
    the error, or the attributes of the value. *)
Definition authenticate_async (self : Strategy) (login : string -> string)
    (req : Request) (now : Z) (resultat : error + gmap string jsval) : outcome :=
  match ticket_and_service req with
  | Throw e => {| performed := []; thrown := Some e |}
  | Normal (ticket, service) =>
      if negb (truthy ticket) then
        {| performed := [redirect (login service) 307]; thrown := None |}
      else
        match resultat with
        | inl err =>
            (* after the catch block, [resultat] is the empty object and its
               [attributes] are undefined *)
            {| performed := retry req now err; thrown := Some (cannot_read "id") |}
        | inr attributes =>
            match
              propertyMap ← section "hasOwnProperty" (st_propertyMap self);
              normalize propertyMap (js_get attributes "id") attributes
            with
            | Throw e => {| performed := []; thrown := Some e |}
            | Normal profile =>
                {| performed :=
                     [verify (if st_passReqToCallback self then Some req else None)
                             (p_id profile) profile];
                   thrown := None |}
            end
        end
  end.
End Authenticate.
End CerbereStrategy.

(** ** The redirects of the clients and the rest of the strategy *)

(** The calls a function makes on the response object. *)
Inductive response_call : Type :=
  | writeHead (status : Z) (location : string)
  | write (chunk : string)
  | end_response.

(** [<a href="url">label</a>] *)
Definition anchor (url label : string) : string :=
  "<a href=" ++ dquote ++ url ++ dquote ++ ">" ++ label ++ "</a>".

(** [logout] of [part_000]. *)
Module CerbereFxpLogout.
Section Logout.
Context `{Platform}.

Definition logout (this : gmap string jsval) (returnUrl doRedirect : jsval)
    : completion (list response_call) :=
  let logout_path :=
    if truthy returnUrl && truthy doRedirect then
      "/logout?service=" ++ encodeURIComponent (to_string returnUrl)
    else if truthy returnUrl then
      "/logout?url=" ++ encodeURIComponent (to_string returnUrl)
    else "/logout" in
  href ← get (js_get this "cerbere_url") "href";
  let redirectURL := to_string href ++ logout_path in
  Normal [writeHead 307 redirectURL; write (anchor redirectURL "CAS logout"); end_response].
End Logout.
End CerbereFxpLogout.

(** The names of the members of [Object.prototype], which an object literal
    inherits. *)
Definition object_prototype_members : list string :=
  ["constructor"; "__defineGetter__"; "__defineSetter__"; "hasOwnProperty";
   "__lookupGetter__"; "__lookupSetter__"; "isPrototypeOf"; "propertyIsEnumerable";
   "toString"; "valueOf"; "__proto__"; "toLocaleString"].

(** [redirect] and [parseAttributes] of [lib/cerbere.js]. *)
Module CerbereCheerioTags.
Section Tags.
Context `{Platform}.

(** [String.prototype.toLowerCase]. *)
Variable toLowerCase : string -> string.

Definition redirect (this : gmap string jsval) (service : jsval)
    : completion (list response_call) :=
  href ← get (js_get this "cerbere_url") "href";
  let redirectURL :=
    to_string href ++ "/login?service=" ++ encodeURIComponent (to_string service) in
  Normal [writeHead 307 redirectURL; write (anchor redirectURL "CAS login"); end_response].

(** [/cas:/], replaced by the empty string. *)
Definition cas_here (s : string) : option (string * string) :=
  match strip_prefix "cas:" s with
  | Some rest => Some (EmptyString, rest)
  | None => None
  end.

(** [node.name.toLowerCase().replace(/cas:/, "")] *)
Definition attrName (name : string) : string :=
  replace_first cas_here (toLowerCase name).

(** One round of the loop of [parseAttributes].  Where the bag has no
    property of its own under the name, [attributes[attrName]] is what the
    bag inherits: a member of [Object.prototype] is there under its name,
    and it has no [push] to call. *)
Definition parseAttributes_step (attributes : gmap string (list string))
    (child : string * string) : completion (gmap string (list string)) :=
  let '(name, attrValue) := child in
  if bool_decide (attrName name = "#text") then Normal attributes
  else
    match attributes !! attrName name with
    | Some values => Normal (<[attrName name := (values ++ [attrValue])%list]> attributes)
    | None =>
        if bool_decide (attrName name ∈ object_prototype_members)
        then Throw (TypeError "attributes[attrName].push is not a function")
        else Normal (<[attrName name := [attrValue]]> attributes)
    end.

Fixpoint parseAttributes_loop (attributes : gmap string (list string))
    (children : list (string * string)) : completion (gmap string (list string)) :=
  match children with
  | [] => Normal attributes
  | child :: children' =>
      attributes' ← parseAttributes_step attributes child;
      parseAttributes_loop attributes' children'
  end.

(** [parseAttributes]; [children] are the element children of the first
    [cas:attributes] element (none when there is no such element), each with
    its [name] and with the text cheerio reads in it.  The values of the
    result are arrays of strings. *)
Definition parseAttributes (children : list (string * string))
    : completion (gmap string (list string)) :=
  parseAttributes_loop ∅ children.
End Tags.
End CerbereCheerioTags.

(** The constructor and [logout] of [lib/strategy.js]. *)

(** An argument of the constructor: a function, or another value. *)
Inductive argument (A : Type) : Type :=
  | a_function
  | a_value (v : A).
Arguments a_function {A}.
Arguments a_value {A} v.

(** The options object, with the members the constructor reads. *)
Record StrategyOptions : Type := {
  casURL : jsval;
  serviceURL : jsval;
  propertyMap : option PropertyMap;
  passReqToCallback : jsval
}.

(** The own properties of a constructed strategy. *)
Record StrategyInstance : Type := {
  si_url : jsval;
  si_service : jsval;
  si_name : string;
  si_verify : argument jsval;
  si_passReqToCallback : jsval;
  si_propertyMap : option PropertyMap;
  si_cerbere : gmap string jsval
}.

(** What [logout] of the strategy does, in order. *)
Inductive logout_step : Type :=
  | session_logout
  | response (call : response_call).

Record logout_run : Type := { steps : list logout_step; raised : option error }.

Module CerbereStrategySetup.
Section Setup.

(** The class of the client, [require('cerbere')], and the [logout] of its
    instances. *)
Variable Cerbere : jsval -> completion (gmap string jsval).
Variable cerbere_logout :
  gmap string jsval -> jsval -> jsval -> completion (list response_call).

Definition truthy_argument (a : argument jsval) : bool :=
  match a with
  | a_function => true
  | a_value v => truthy v
  end.

Definition no_options : StrategyOptions :=
  {| casURL := JUndefined; serviceURL := JUndefined; propertyMap := None;
     passReqToCallback := JUndefined |}.

(** [new Strategy(options, verify)]; an options argument [None] is
    undefined, whose members cannot be read. *)
Definition new_Strategy (options : argument (option StrategyOptions))
    (verify_ : argument jsval) : completion StrategyInstance :=
  let '(options, verify_) :=
    match options with
    | a_function => (Some no_options, a_function)
    | a_value o => (o, verify_)
    end in
  if negb (truthy_argument verify_)
  then Throw (TypeError "CerbereStrategy requires a verify callback") else
  match options with
  | None => Throw (cannot_read "casURL")
  | Some options =>
      let url := casURL options in
      if negb (truthy url)
      then Throw (TypeError "CerbereStrategy requires a casURL option") else
      let service := serviceURL options in
      if negb (truthy service)
      then Throw (TypeError "CerbereStrategy requires a serviceURL option") else
      cerbere ← Cerbere (JObject [("url", url)]);
      Normal {| si_url := url; si_service := service; si_name := "cerbere";
                si_verify := verify_;
                si_passReqToCallback := passReqToCallback options;
                si_propertyMap := propertyMap options; si_cerbere := cerbere |}
  end.

(** [logout(req, res, returnUrl)]: the session is closed, then the client
    writes the redirect. *)
Definition logout (self : StrategyInstance) (returnUrl : jsval) : logout_run :=
  match
    (if truthy returnUrl
     then cerbere_logout (si_cerbere self) returnUrl (JBool true)
     else cerbere_logout (si_cerbere self) JUndefined JUndefined)
  with
  | Normal calls => {| steps := session_logout :: map response calls; raised := None |}
  | Throw e => {| steps := [session_logout]; raised := Some e |}
  end.
End Setup.
End CerbereStrategySetup.

(** ** Vocabulary of the properties *)

(** An [Attribute] element of a SAML answer as fast-xml-parser renders it: an
    object whose [@_AttributeName] is the name of [entry], a string, and whose
    [AttributeValue] carries the text of [entry]. *)
Definition attribute_element (entry : string * jsval) (elemAttribute : jsval) : Prop :=
  exists members value,
    elemAttribute = JObject members
    /\ own_property "@_AttributeName" members = Some (JString (fst entry))
    /\ own_property "AttributeValue" members = Some value
    /\ get value "#text" = Normal (snd entry).

(** The value of the last entry of a list of (name, text) pairs that has the name [k]. *)
Fixpoint last_value (k : string) (entries : list (string * jsval)) : option jsval :=
  match entries with
  | [] => None
  | (k', v) :: rest =>
      match last_value k rest with
      | Some w => Some w
      | None => if bool_decide (k = k') then Some v else None
      end
  end.

(** What the bag holds under a name after a list of (name, text) pairs has
    been assigned to it: the text of the last pair of that name, and nothing
    under [__proto__]. *)
Definition bag_value (k : string) (entries : list (string * jsval)) : option jsval :=
  if bool_decide (k = "__proto__") then None else last_value k entries.

(** The text of a response after chunks of it have arrived, one after
    another. *)
Definition received (response : string) (chunks : list string) : string :=
  fold_left String.append chunks response.

(** The callbacks among the effects. *)
Definition calls (done : list effect) : list callback :=
  omap (fun f => match f with call cb => Some cb | _ => None end) done.

(** An event other than [data]. *)
Definition not_data (ev : event) : bool :=
  match ev with
  | res_data _ => false
  | _ => true
  end.

(** The callback of an [error] event. *)
Definition error_callback (ev : event) : option callback :=
  match ev with
  | req_error err | res_error err => Some (cb_error err)
  | _ => None
  end.

(** The steps from the root of a parsed document. *)
Fixpoint path (v : jsval) (names : list string) : completion jsval :=
  match names with
  | [] => Normal v
  | k :: names' => v' ← get v k; path v' names'
  end.

(** The XML escaping that the specification asks for the ticket. *)
Definition xml_escape_char (c : ascii) : string :=
  if Ascii.eqb c "&" then "&amp;"
  else if Ascii.eqb c "<" then "&lt;"
  else if Ascii.eqb c ">" then "&gt;"
  else if Ascii.eqb c "034" then "&quot;"
  else if Ascii.eqb c "'" then "&apos;"
  else String c EmptyString.

Fixpoint xml_escape (s : string) : string :=
  match s with
  | EmptyString => EmptyString
  | String c s' => xml_escape_char c ++ xml_escape s'
  end.

Definition xml_special (c : ascii) : bool :=
  Ascii.eqb c "&" || Ascii.eqb c "<" || Ascii.eqb c ">" || Ascii.eqb c "034"
  || Ascii.eqb c "'".

Fixpoint all_chars (f : ascii -> bool) (s : string) : bool :=
  match s with
  | EmptyString => true
  | String c s' => f c && all_chars f s'
  end.

(** The pattern matches at no position of [s ++ rest] that lies in [s]. *)
Fixpoint matches_nowhere (match_here : string -> option (string * string))
    (s rest : string) : bool :=
  match s with
  | EmptyString => true
  | String c s' =>
      match match_here (s ++ rest) with
      | Some _ => false
      | None => matches_nowhere match_here s' rest
      end
  end.

(** A text without the characters at which the patterns of the retry begin. *)
Definition plain_path (s : string) : bool :=
  all_chars (fun c => negb (Ascii.eqb c "_" || Ascii.eqb c "?" || Ascii.eqb c "&")) s.

(** The first character of a string, if any, is outside a class. *)
Definition stops (f : ascii -> bool) (s : string) : bool :=
  match s with
  | EmptyString => true
  | String c _ => negb (f c)
  end.

(** The attribute keys a property map refers to. *)
Definition adresse_keys (a : AdresseMap) : list string :=
  [ak_street (am_key a); ak_town (am_key a); ak_streetcode (am_key a);
   ak_country (am_key a)].

Definition organization_keys (o : OrganizationMap) : list string :=
  [ok_code (om_key o); ok_name (om_key o)].

Definition referenced (propertyMap : PropertyMap) : list string :=
  (option_list (pm_provider propertyMap)
   ++ option_list (pm_id propertyMap)
   ++ map snd (default [] (pm_name propertyMap))
   ++ map kt_key (default [] (pm_emails propertyMap))
   ++ map kt_key (default [] (pm_telephones propertyMap))
   ++ concat (map adresse_keys (default [] (pm_adresses propertyMap)))
   ++ concat (map organization_keys (default [] (pm_organizations propertyMap)))
   ++ map snd (pm_others propertyMap))%list.

(** Two bags that every key of a list reads alike. *)
Definition agree (keys : list string) (a1 a2 : gmap string jsval) : Prop :=
  forall k, k ∈ keys -> js_get a1 k = js_get a2 k.

(** All four list sections are configured. *)
Definition lists_configured (propertyMap : PropertyMap) : Prop :=
  is_Some (pm_emails propertyMap) /\ is_Some (pm_telephones propertyMap)
  /\ is_Some (pm_adresses propertyMap) /\ is_Some (pm_organizations propertyMap).

(** An entry of the profile answers an entry of the map: the type is copied,
    the value is the attribute of the bag, or undefined. *)
Definition answers (attributes : gmap string jsval) (key : string) (v : jsval) : Prop :=
  v = JUndefined \/ attributes !! key = Some v.

Definition value_entry (attributes : gmap string jsval) (e : ValueType) (m : KeyType)
    : Prop :=
  e_type e = kt_type m /\ answers attributes (kt_key m) (e_value e).

Definition adresse_entry (attributes : gmap string jsval) (e : Adresse) (m : AdresseMap)
    : Prop :=
  a_type e = am_type m
  /\ answers attributes (ak_street (am_key m)) (a_street e)
  /\ answers attributes (ak_town (am_key m)) (a_town e)
  /\ answers attributes (ak_streetcode (am_key m)) (a_streetcode e)
  /\ answers attributes (ak_country (am_key m)) (a_country e).

Definition organization_entry (attributes : gmap string jsval) (e : Organization)
    (m : OrganizationMap) : Prop :=
  o_type e = om_type m
  /\ answers attributes (ok_code (om_key m)) (o_code e)
  /\ answers attributes (ok_name (om_key m)) (o_name e).

(** ** Data of the examples *)

(** Decimal numerals, the instance of [ToNumber] the examples use: it is the
    language's on the strings of digits and on the empty string. *)
Fixpoint decimal_digits (s : string) (acc : Z) : option Z :=
  match s with
  | EmptyString => Some acc
  | String c s' =>
      if is_digit c
      then decimal_digits s' (10 * acc + Z.of_nat (nat_of_ascii c) - 48)
      else None
  end.

Definition decimal_number (s : string) : number :=
  match decimal_digits s 0 with
  | Some n => n
  | None => NaN
  end.

(** The instance of [NumberToString] of the examples, which print no number
    but integers below 2^53 and never come to it: it writes the fraction. *)
Definition fraction_text (q : Q) : string :=
  pretty (Qnum q) ++ "/" ++ pretty (Zpos (Qden q)).

(** The TypeError of [url.parse] in the examples, none of which passes it
    anything but a string. *)
Definition example_type_error (v : jsval) : error :=
  TypeError ("The " ++ dquote ++ "url" ++ dquote ++ " argument must be of type string").

Definition example_url : jsval :=
  JObject [("protocol", JString "https:"); ("hostname", JString "sso.example.org");
           ("port", JNull); ("pathname", JString "/cas/public");
           ("href", JString "https://sso.example.org/cas/public")].

(** A request URL is parsed into the query [query]; every document is parsed
    into [parsed]. *)
Definition example_platform (query : list (string * jsval)) (parsed : error + jsval)
    : Platform := {|
  NumberToString := fraction_text;
  StringToNumber := decimal_number;
  url_type_error := example_type_error;
  url_parse := fun u parseQueryString =>
    if parseQueryString
    then JObject [("query", JObject query); ("host", JNull); ("pathname", JString "/cb")]
    else example_url;
  url_format := fun _ => "https://app.example.org/cb";
  encodeURIComponent := fun s => s;
  fxp_parse := fun _ => parsed
|}.

(** The SAML answers of the examples, as fast-xml-parser renders them under
    the options of [validate]: the name space of a tag is dropped; an
    attribute [a] of an element is its member [@_a], a string; the text of
    an element that has attributes is its member [#text]; an element that
    occurs once under its parent is that member itself, elements of one name
    that occur several times are an array. *)

(** An element with a text and an attribute. *)
Definition text_element (text : jsval) : jsval :=
  JObject [("#text", text); ("@_type", JString "xs:string")].

Definition attribute_of (name : string) (value : jsval) : jsval :=
  JObject [("@_AttributeName", JString name); ("AttributeValue", value)].

Definition bob_attribute : jsval :=
  attribute_of "UTILISATEUR.MEL" (text_element (JString "b@x.com")).

Definition martin_attribute : jsval :=
  attribute_of "UTILISATEUR.NOM" (text_element (JString "Martin")).

Definition subject_of (nameIdentifier : jsval) : jsval :=
  JObject [("NameIdentifier", nameIdentifier)].

Definition bob_subject : jsval := subject_of (text_element (JString "bob")).

(** A subject whose name identifier has no text. *)
Definition silent_subject : jsval :=
  subject_of (JObject [("@_type", JString "xs:string")]).

(** The answer of an envelope: its [Response] element. *)
Definition answer_document (elemResponse : jsval) : jsval :=
  JObject [("Envelope", JObject [("Header", JString EmptyString);
                                 ("Body", JObject [("Response", elemResponse)])])].

Definition success_status : jsval :=
  JObject [("StatusCode", JObject [("@_Value", JString "ns2:Success")])].

(** The assertion that states how the subject has logged in. *)
Definition authentication_assertion : jsval :=
  JObject [("AuthenticationStatement",
            JObject [("@_AuthenticationMethod",
                      JString "urn:oasis:names:tc:SAML:1.0:am:password")])].

(** A success answer of two assertions, the first with a given attribute
    statement. *)
Definition statement_response (statement : jsval) : jsval :=
  JObject [("Status", success_status);
           ("Assertion", JArray [JObject [("AttributeStatement", statement)];
                                 authentication_assertion])].

Definition statement_document (statement : jsval) : jsval :=
  answer_document (statement_response statement).

(** A success answer of one assertion. *)
Definition lone_document (statement : jsval) : jsval :=
  answer_document
    (JObject [("Status", success_status);
              ("Assertion", JObject [("AttributeStatement", statement)])]).

(** An answer with a given status code element and nothing else. *)
Definition status_document (statusCode : jsval) : jsval :=
  answer_document (JObject [("Status", JObject [("StatusCode", statusCode)])]).

(** The answer for the subject bob with the attributes UTILISATEUR.MEL and
    UTILISATEUR.NOM, in two assertions. *)
Definition bob_statement : jsval :=
  JObject [("Subject", bob_subject); ("Attribute", JArray [bob_attribute; martin_attribute])].

Definition bob_response : jsval := statement_response bob_statement.

Definition bob_document : jsval := answer_document bob_response.

(** The answer for the subject bob with the one attribute UTILISATEUR.MEL:
    one [Attribute] element, here in the first of two assertions, there in
    the only one. *)
Definition lone_bob_statement : jsval :=
  JObject [("Subject", bob_subject); ("Attribute", bob_attribute)].

Definition lone_attribute_document : jsval := statement_document lone_bob_statement.

Definition lone_bob_document : jsval := lone_document lone_bob_statement.

(** The property map of the README. *)
Definition readme_propertyMap : PropertyMap := {|
  pm_provider := None;
  pm_id := Some "UTILISATEUR.ID";
  pm_name := Some [("civilite", "UTILISATEUR.CIVILITE");
                   ("givenName", "UTILISATEUR.PRENOM");
                   ("familyName", "UTILISATEUR.NOM")];
  pm_emails := Some [ {| kt_key := "UTILISATEUR.MEL"; kt_type := JString "principal" |};
                      {| kt_key := "UTILISATEUR.MELPR"; kt_type := JString "professionnel" |} ];
  pm_telephones := Some [ {| kt_key := "UTILISATEUR.TEL_FIXE"; kt_type := JString "fixe" |} ];
  pm_adresses :=
    Some [ {| am_key := {| ak_street := "UTILISATEUR.ADR_RUE";
                           ak_town := "UTILISATEUR.ADR_VILLE";
                           ak_streetcode := "UTILISATEUR.ADR_CODEPOSTAL";
                           ak_country := "UTILISATEUR.ADR_PAYS_NOM" |};
              am_type := JString "principale" |};
           {| am_key := {| ak_street := "ENTREPRISE.ADR_RUE";
                           ak_town := "ENTREPRISE.ADR_VILLE";
                           ak_streetcode := "ENTREPRISE.ADR_CODEPOSTAL";
                           ak_country := "ENTREPRISE.ADR_PAYS_NOM" |};
              am_type := JString "entreprise" |} ];
  pm_organizations :=
    Some [ {| om_key := {| ok_code := "ENTREPRISE.SIREN";
                           ok_name := "ENTREPRISE.RAISON_SOCIALE" |};
              om_type := JString "principale" |} ];
  pm_others := [("unite", "UTILISATEUR.UNITE")]
|}.

(** The same map without an [id]. *)
Definition propertyMap_without_id : PropertyMap := {|
  pm_provider := None;
  pm_id := None;
  pm_name := pm_name readme_propertyMap;
  pm_emails := pm_emails readme_propertyMap;
  pm_telephones := pm_telephones readme_propertyMap;
  pm_adresses := pm_adresses readme_propertyMap;
  pm_organizations := pm_organizations readme_propertyMap;
  pm_others := pm_others readme_propertyMap
|}.

Definition example_strategy (propertyMap : PropertyMap) : Strategy := {|
  st_url := "https://sso.example.org/cas/public";
  st_service := "https://app.example.org/cb";
  st_propertyMap := Some propertyMap;
  st_passReqToCallback := false
|}.

Definition example_request (url : string) (query : list (string * jsval)) : Request := {|
  req_originalUrl := Some url;
  req_url := url;
  req_protocol := JString "https";
  req_headers := ∅;
  req_query := list_to_map query
|}.

Definition bob_attributes : gmap string jsval :=
  <["UTILISATEUR.NOM" := JString "Martin"]> (<["UTILISATEUR.MEL" := JString "b@x.com"]> ∅).

Definition bob_extended (attributes : gmap string jsval) : extended :=
  {| ext_username := JString "bob"; ext_attributes := attributes; ext_ticket := "ST-1" |}.

(** The envelope with [artifact] as the content of [AssertionArtifact]. *)
Definition envelope_around (requestId issueInstant artifact : string) : string :=
  "<SOAP-ENV:Envelope xmlns:SOAP-ENV=" ++ dquote
  ++ "http://schemas.xmlsoap.org/soap/envelope/" ++ dquote
  ++ "><SOAP-ENV:Header/><SOAP-ENV:Body><samlp:Request xmlns:samlp=" ++ dquote
  ++ "urn:oasis:names:tc:SAML:1.0:protocol" ++ dquote
  ++ " MajorVersion=" ++ dquote ++ "1" ++ dquote
  ++ " MinorVersion=" ++ dquote ++ "1" ++ dquote
  ++ " RequestID=" ++ dquote ++ requestId ++ dquote
  ++ " IssueInstant=" ++ dquote ++ issueInstant ++ dquote
  ++ "><samlp:AssertionArtifact>" ++ artifact
  ++ "</samlp:AssertionArtifact></samlp:Request></SOAP-ENV:Body></SOAP-ENV:Envelope>".

(** A well-formed SOAP/SAML answer of success, as a parsed document: the status
    is the success sentinel, the first assertion names the subject [userId],
    and its attribute statement lists the attribute elements of [entries]. *)
Definition saml_success (document userId : jsval) (entries : list (string * jsval))
    : Prop :=
  exists elemResponse assertions assertion statement elemAttributes,
    path document ["Envelope"; "Body"; "Response"] = Normal elemResponse
    /\ path elemResponse ["Status"; "StatusCode"; "@_Value"] = Normal (JString "ns2:Success")
    /\ get elemResponse "Assertion" = Normal assertions
    /\ get_index assertions 0 = Normal assertion
    /\ get assertion "AttributeStatement" = Normal statement
    /\ path statement ["Subject"; "NameIdentifier"; "#text"] = Normal userId
    /\ truthy userId = true
    /\ get statement "Attribute" = Normal (JArray elemAttributes)
    /\ Forall2 attribute_element entries elemAttributes.

(** A document that fast-xml-parser accepts and that has no [Envelope]. *)
Definition stray_document : jsval := JObject [("html", JString "not a SOAP answer")].

Definition example_options : jsval :=
  JObject [("url", JString "https://sso.example.org/cas/public")].

(** The profile handed to the verify callback, when that is all a call does. *)
Definition verified_profile (o : outcome) : option Profile :=
  match performed o, thrown o with
  | [verify _ _ profile], None => Some profile
  | _, _ => None
  end.

(** Platforms of the examples: a parser that rejects the document, one that
    returns the answer for bob, one that returns a document without envelope;
    the request URL carries the ticket ST-1 or the ticket +x. *)
Definition rejecting_platform : Platform :=
  example_platform [("ticket", JString "ST-1")] (inl (Error "Closing tag expected")).

Definition bob_platform : Platform :=
  example_platform [("ticket", JString "ST-1")] (inr bob_document).

Definition stray_platform : Platform :=
  example_platform [("ticket", JString "ST-1")] (inr stray_document).

Definition plus_platform : Platform :=
  example_platform [("ticket", JString "+x")] (inl (Error "Closing tag expected")).

Definition lone_bob_platform : Platform :=
  example_platform [("ticket", JString "ST-1")] (inr lone_bob_document).

Definition lone_attribute_platform : Platform :=
  example_platform [("ticket", JString "ST-1")] (inr lone_attribute_document).

Definition stale_ticket : error := Error "Validation failed [ns2:RequestDenied]: undefined".

(** ** Vocabulary and data of the further properties *)

(** A platform whose [url.parse] answers with a given Url object. *)
Definition url_platform (parsed : jsval) : Platform := {|
  NumberToString := fraction_text;
  StringToNumber := decimal_number;
  url_type_error := example_type_error;
  url_parse := fun _ _ => parsed;
  url_format := fun _ => "https://app.example.org/cb";
  encodeURIComponent := fun s => s;
  fxp_parse := fun _ => inl (Error "Closing tag expected")
|}.

Definition http_url : jsval :=
  JObject [("protocol", JString "http:"); ("hostname", JString "sso.example.org");
           ("port", JNull); ("pathname", JString "/cas/public");
           ("href", JString "http://sso.example.org/cas/public")].

(** The attribute statement of the first assertion of a SOAP/SAML answer whose
    status is the success sentinel. *)
Definition saml_statement (document statement : jsval) : Prop :=
  exists elemResponse assertions assertion,
    path document ["Envelope"; "Body"; "Response"] = Normal elemResponse
    /\ path elemResponse ["Status"; "StatusCode"; "@_Value"] = Normal (JString "ns2:Success")
    /\ get elemResponse "Assertion" = Normal assertions
    /\ get_index assertions 0 = Normal assertion
    /\ get assertion "AttributeStatement" = Normal statement.

(** An element of the attribute list: an attribute element with its entry, or
    a value without [@_AttributeName], which has no entry. *)
Definition listed_element (entry : option (string * jsval)) (elemAttribute : jsval)
    : Prop :=
  match entry with
  | Some e => attribute_element e elemAttribute
  | None => hasOwnProperty elemAttribute "@_AttributeName" = Normal false
  end.

(** The entries that a list of elements has. *)
Definition entries_of (entries : list (option (string * jsval))) : list (string * jsval) :=
  omap id entries.

(** The keys that the sections before the additional properties delete from
    the bag: the names of the [name] members, the keys of the [emails]
    entries and the types of the [telephones] entries. *)
Definition deleted_keys `{Platform} (propertyMap : PropertyMap) : list string :=
  (map fst (default [] (pm_name propertyMap))
   ++ map kt_key (default [] (pm_emails propertyMap))
   ++ map (fun telephone => to_string (kt_type telephone))
        (default [] (pm_telephones propertyMap)))%list.

(** A child whose attribute name is no member of [Object.prototype]. *)
Definition own_named (name_of : string -> string) (child : string * string) : Prop :=
  name_of child.1 ∉ object_prototype_members.

(** The texts of the children whose attribute name is [k], in order. *)
Fixpoint texts_of (name_of : string -> string) (k : string)
    (children : list (string * string)) : list string :=
  match children with
  | [] => []
  | (name, text) :: rest =>
      if bool_decide (name_of name = k)
      then text :: texts_of name_of k rest
      else texts_of name_of k rest
  end.

(** Lower case of the letters A to Z, the instance of [toLowerCase] the
    examples use. *)
Definition ascii_lower (c : ascii) : ascii :=
  let n := nat_of_ascii c in
  if Nat.leb 65 n && Nat.leb n 90 then ascii_of_nat (n + 32) else c.

Fixpoint lower (s : string) : string :=
  match s with
  | EmptyString => EmptyString
  | String c s' => String (ascii_lower c) (lower s')
  end.

Definition example_options_object : StrategyOptions :=
  {| casURL := JString "https://www.example.com/cas/public";
     serviceURL := JString "https://www.example.com/";
     propertyMap := None;
     passReqToCallback := JUndefined |}.

(** The README map with the first [emails] entry listed twice. *)
Definition propertyMap_twice : PropertyMap := {|
  pm_provider := None;
  pm_id := pm_id readme_propertyMap;
  pm_name := pm_name readme_propertyMap;
  pm_emails := Some [ {| kt_key := "UTILISATEUR.MEL"; kt_type := JString "principal" |};
                      {| kt_key := "UTILISATEUR.MEL"; kt_type := JString "copie" |} ];
  pm_telephones := pm_telephones readme_propertyMap;
  pm_adresses := pm_adresses readme_propertyMap;
  pm_organizations := pm_organizations readme_propertyMap;
  pm_others := pm_others readme_propertyMap
|}.

(** A strategy as the test suite constructs it: no property map. *)
Definition bare_strategy : Strategy := {|
  st_url := "https://www.example.com/cas/public";
  st_service := "https://www.example.com/";
  st_propertyMap := None;
  st_passReqToCallback := false
|}.

Definition failure_status : jsval :=
  JObject [("#text", JString "ticket expired"); ("@_Value", JString "INVALID_TICKET")].

(** An [Attribute] element with a name and without [AttributeValue]. *)
Definition valueless_attribute : jsval :=
  JObject [("@_AttributeName", JString "UTILISATEUR.TEL")].

(** The README map without one of its list sections. *)
Definition propertyMap_without_emails : PropertyMap := {|
  pm_provider := None;
  pm_id := pm_id readme_propertyMap;
  pm_name := pm_name readme_propertyMap;
  pm_emails := None;
  pm_telephones := pm_telephones readme_propertyMap;
  pm_adresses := pm_adresses readme_propertyMap;
  pm_organizations := pm_organizations readme_propertyMap;
  pm_others := pm_others readme_propertyMap
|}.

Definition propertyMap_without_organizations : PropertyMap := {|
  pm_provider := None;
  pm_id := pm_id readme_propertyMap;
  pm_name := pm_name readme_propertyMap;
  pm_emails := pm_emails readme_propertyMap;
  pm_telephones := pm_telephones readme_propertyMap;
  pm_adresses := pm_adresses readme_propertyMap;
  pm_organizations := None;
  pm_others := pm_others readme_propertyMap
|}.

(** * Properties *)

(** ** The retry token *)

Lemma Math_round_quotient (t d : Z) :
  0 < d -> Math_round (inject_Z t / inject_Z d) = (2 * t + d) / (2 * d).
Proof.
  intros Hd. unfold Math_round, Qfloor, Qdiv, Qinv, Qplus, Qmult, inject_Z; simpl.
  destruct d as [|d|d]; try lia. simpl.
  f_equal; lia.
Qed.

(** C3, as the code has it: the token is the time divided by 60000 and rounded
    to the nearest integer, a half going up, that is the floor of
    (t + 30000) / 60000; the windows are 60 seconds long and start on the
    half minute; the marker of a request is compared with this token, and
    this token is the one the redirect stamps. *)
Theorem retry_token_rounds `{Platform} (t : Z) (req : Request) (err : error) :
  retry_token t = (t + 30000) / 60000
  /\ retry_token (t + 60000) = retry_token t + 1
  /\ CerbereStrategy.retry req t err
     = if loose_eq_number (js_get (req_query req) "_cas_retry") ((t + 30000) / 60000)
       then [fail err]
       else [redirect (CerbereStrategy.retry_url (request_url req) ((t + 30000) / 60000))
               307].
Proof.
  assert (Hr : forall u, retry_token u = (u + 30000) / 60000).
  { intros u. unfold retry_token. rewrite Math_round_quotient by lia.
    replace (2 * u + 60000) with (2 * (u + 30000)) by lia.
    rewrite Z.div_mul_cancel_l by lia. reflexivity. }
  split; [apply Hr|]. split.
  - rewrite !Hr. replace (t + 60000 + 30000) with ((t + 30000) + 1 * 60000) by lia.
    rewrite Z.div_add by lia. reflexivity.
  - unfold CerbereStrategy.retry. rewrite Hr.
    destruct (loose_eq_number _ _); reflexivity.
Qed.

(** C3 fails as stated: half a minute after the epoch the token is 1, the
    floor of the quotient is 0. *)
Lemma retry_token_is_not_floor :
  retry_token 30000 = 1 /\ 30000 / 60000 = 0 /\ retry_token 30000 <> 30000 / 60000.
Proof. repeat split; vm_compute; congruence. Qed.

(** ** The SOAP envelope *)

(** A text without the five special characters is its own escaped form. *)
Lemma xml_escape_plain (s : string) :
  all_chars (fun c => negb (xml_special c)) s = true -> xml_escape s = s.
Proof.
  induction s as [|c s IH]; intros Hs; [reflexivity|].
  simpl in Hs. apply andb_prop in Hs as [Hc Hs].
  change (xml_escape (String c s)) with (xml_escape_char c ++ xml_escape s).
  rewrite (IH Hs). unfold xml_escape_char, xml_special in *.
  destruct (Ascii.eqb c "&"); [discriminate Hc|].
  destruct (Ascii.eqb c "<"); [discriminate Hc|].
  destruct (Ascii.eqb c ">"); [discriminate Hc|].
  destruct (Ascii.eqb c "034"); [discriminate Hc|].
  destruct (Ascii.eqb c "'"); [discriminate Hc|].
  reflexivity.
Qed.

(** C4, as the code has it: the envelope holds the ticket as it is given,
    character for character, between the tags of [AssertionArtifact]. *)
Theorem soapEnvelope_embeds_ticket_verbatim (requestId issueInstant ticket : string) :
  soapEnvelope requestId issueInstant ticket
  = envelope_around requestId issueInstant ticket.
Proof.
  unfold soapEnvelope, envelope_around, soap_template, dquote.
  cbn -[String.append]. reflexivity.
Qed.

(** ** The clients *)

Ltac step_completion :=
  match goal with
  | H : context [mbind _ ?m] |- _ =>
      let E := fresh "E" in destruct m eqn:E; simpl in H; try discriminate H
  | H : context [if ?b then _ else _] |- _ =>
      let E := fresh "E" in destruct b eqn:E; simpl in H; try discriminate H
  end.

Lemma get_defined (v : jsval) (k k' : string) (w : jsval) :
  get v k = Normal w -> exists w', get v k' = Normal w'.
Proof. destruct v; simpl; intros Hg; try discriminate Hg; eauto. Qed.

Section Clients.
Context `{Platform}.

(** The instance the constructor of [part_000] builds has the two own
    properties [cerbere_url] and [base_path], the first one an object whose
    members can be read. *)
Lemma fxp_Cerbere_instance (options : jsval) (this : gmap string jsval) :
  CerbereFxp.Cerbere options = Normal this ->
  exists cerbere_url pathname,
    this = <["base_path" := pathname]> (<["cerbere_url" := cerbere_url]> ∅)
    /\ forall k, exists v, get cerbere_url k = Normal v.
Proof.
  unfold CerbereFxp.Cerbere. intros Hc.
  repeat step_completion.
  injection Hc as <-. eexists _, _. split; [reflexivity|].
  intros k. eapply get_defined; eassumption.
Qed.

Lemma cheerio_Cerbere_instance (options : jsval) (this : gmap string jsval) :
  CerbereCheerio.Cerbere options = Normal this ->
  exists cerbere_url pathname,
    this = <["base_path" := pathname]> (<["cerbere_url" := cerbere_url]> ∅).
Proof.
  unfold CerbereCheerio.Cerbere. intros Hc.
  repeat step_completion.
  injection Hc as <-. eexists _, _. reflexivity.
Qed.

(** C10: on an instance that the constructor of [lib/cerbere.js] has built,
    [validate] throws a TypeError when it reads [this.cerbereURL.hostname],
    whatever the ticket and the service; the request is not sent and no
    listener runs, so that the callback is never called. *)
Theorem cheerio_validate_throws (options : jsval) (this : gmap string jsval)
    (ticket service requestId issueInstant : string)
    (send : request_options -> string -> completion (list callback)) :
  CerbereCheerio.Cerbere options = Normal this ->
  CerbereCheerio.validate this ticket service requestId issueInstant send
  = Throw (cannot_read "hostname").
Proof.
  intros Hc. destruct (cheerio_Cerbere_instance _ _ Hc) as (cu & pn & ->).
  reflexivity.
Qed.

Lemma dispatch_breaks (document : jsval) (ticket : string) (e : error) :
  path document ["Envelope"; "Body"; "Response"; "Status"; "StatusCode"; "@_Value"]
  = Throw e ->
  CerbereFxp.dispatch document ticket = Throw e.
Proof.
  unfold CerbereFxp.dispatch. simpl. intros Hp.
  repeat (match type of Hp with
          | context [get ?o ?k] => destruct (get o k); simpl in Hp |- *
          end; try (injection Hp as ->; reflexivity)).
  discriminate Hp.
Qed.

(** C9 fails on the code: an answer that the parser accepts and that lacks
    an element on the way to the status value makes the [end] listener of
    [part_000] throw the TypeError of the step that cannot be taken; the
    callback is not called, neither by this event nor by the [data] event
    before it, and the exception ends the exchange. *)
Theorem fxp_stray_answer_throws (response ticket : string) (document : jsval)
    (e : error) :
  fxp_parse response = inr document ->
  path document ["Envelope"; "Body"; "Response"; "Status"; "StatusCode"; "@_Value"]
  = Throw e ->
  CerbereFxp.on_end response ticket = Throw e
  /\ CerbereFxp.deliver ticket EmptyString [res_data response; res_end]
     = {| effects := if Z.ltb 1000000 (Z.of_nat (String.length response))
                     then [destroy_connection] else [];
          fault := Some e |}.
Proof.
  intros Hparse Hpath.
  assert (Hend : CerbereFxp.on_end response ticket = Throw e).
  { unfold CerbereFxp.on_end. rewrite Hparse. apply dispatch_breaks, Hpath. }
  split; [exact Hend|].
  cbn [CerbereFxp.deliver CerbereFxp.listener].
  change (EmptyString ++ response) with response.
  rewrite Hend. simpl. rewrite app_nil_r. reflexivity.
Qed.
End Clients.

Section ParseAttributes.
Context `{Platform}.

Lemma path_cons (v : jsval) (k : string) (names : list string) (w : jsval) :
  path v (k :: names) = Normal w ->
  exists v', get v k = Normal v' /\ path v' names = Normal w.
Proof.
  simpl. destruct (get v k) as [v'|e]; simpl; [eauto | discriminate].
Qed.

Lemma attribute_element_step (entry : string * jsval) (elemAttribute : jsval) :
  attribute_element entry elemAttribute ->
  hasOwnProperty elemAttribute "@_AttributeName" = Normal true
  /\ get elemAttribute "@_AttributeName" = Normal (JString (fst entry))
  /\ exists value, get elemAttribute "AttributeValue" = Normal value
                   /\ get value "#text" = Normal (snd entry).
Proof.
  intros (members & value & -> & Hn & Hv & Ht). simpl.
  rewrite Hn, Hv. simpl. repeat split; eauto.
Qed.

(** Over an array the loop runs once for each element. *)
Lemma parseAttributes_array (elems : list jsval) :
  CerbereFxp.parseAttributes (JArray elems)
  = CerbereFxp.parseAttributes_loop (JArray elems) (length elems) 0 ∅.
Proof.
  unfold CerbereFxp.parseAttributes. simpl.
  rewrite Qceiling_Z, Nat2Z.id. reflexivity.
Qed.

(** What an assignment leaves under a name. *)
Lemma assign_value (attributes : gmap string jsval) (name : string) (text : jsval)
    (k : string) (rest : list (string * jsval)) :
  match bag_value k rest with
  | Some v => Some v
  | None => assign attributes name text !! k
  end
  = match bag_value k ((name, text) :: rest) with
    | Some v => Some v
    | None => attributes !! k
    end.
Proof.
  unfold bag_value, assign. cbn [last_value].
  destruct (decide (k = "__proto__")) as [-> | Hk].
  - rewrite bool_decide_eq_true_2 by reflexivity.
    case_bool_decide as Hn; [reflexivity|].
    apply lookup_insert_ne. exact Hn.
  - rewrite (bool_decide_eq_false_2 _ Hk).
    destruct (last_value k rest); [reflexivity|].
    destruct (decide (k = name)) as [-> | Hne].
    + rewrite (bool_decide_eq_true_2 (name = name)) by reflexivity.
      rewrite (bool_decide_eq_false_2 _ Hk). apply lookup_insert_eq.
    + rewrite (bool_decide_eq_false_2 _ Hne).
      case_bool_decide; [reflexivity|].
      apply lookup_insert_ne. congruence.
Qed.

(** The loop over attribute elements and values that have no
    [@_AttributeName]: each of the first assigns its text under its name,
    the others are passed over. *)
Lemma parseAttributes_loop_listed (entries : list (option (string * jsval))) :
  forall (elems before : list jsval) (attributes : gmap string jsval),
    Forall2 listed_element entries elems ->
    exists bag,
      CerbereFxp.parseAttributes_loop (JArray (before ++ elems)) (length elems)
        (length before) attributes = Normal bag
      /\ forall k, bag !! k = match bag_value k (entries_of entries) with
                              | Some v => Some v
                              | None => attributes !! k
                              end.
Proof.
  induction entries as [|entry entries IH]; intros elems before attributes Hf.
  - inversion Hf; subst. exists attributes. split; [reflexivity|].
    intros k. unfold bag_value. simpl. destruct (bool_decide _); reflexivity.
  - inversion Hf as [|? elem ? elems' Helem Hrest]; subst.
    assert (Hget : get_index (JArray (before ++ elem :: elems')) (length before)
                   = Normal elem).
    { simpl. rewrite lookup_app_r by lia. rewrite Nat.sub_diag. reflexivity. }
    assert (Hnext : forall attributes',
               CerbereFxp.parseAttributes_loop (JArray (before ++ elem :: elems'))
                 (length elems') (S (length before)) attributes'
               = CerbereFxp.parseAttributes_loop (JArray ((before ++ [elem]) ++ elems'))
                   (length elems') (length (before ++ [elem])) attributes').
    { intros attributes'. rewrite <- app_assoc, length_app. simpl.
      replace (length before + 1)%nat with (S (length before)) by lia. reflexivity. }
    destruct entry as [[name text]|].
    + destruct (attribute_element_step _ _ Helem)
        as (Hhas & Hname & value & Hvalue & Htext).
      simpl in Hname, Htext.
      destruct (IH elems' (before ++ [elem])%list (assign attributes name text) Hrest)
        as (bag & Hloop & Hbag).
      exists bag. split.
      * cbn [CerbereFxp.parseAttributes_loop length]. rewrite Hget. simpl.
        rewrite Hhas. simpl. rewrite Hname. simpl. rewrite Hvalue. simpl.
        rewrite Htext. simpl. rewrite Hnext. exact Hloop.
      * intros k. rewrite Hbag.
        change (entries_of (Some (name, text) :: entries))
          with ((name, text) :: entries_of entries).
        apply assign_value.
    + simpl in Helem.
      destruct (IH elems' (before ++ [elem])%list attributes Hrest)
        as (bag & Hloop & Hbag).
      exists bag. split.
      * cbn [CerbereFxp.parseAttributes_loop length]. rewrite Hget. simpl.
        rewrite Helem. simpl. rewrite Hnext. exact Hloop.
      * exact Hbag.
Qed.

Lemma parseAttributes_listed (entries : list (option (string * jsval)))
    (elems : list jsval) :
  Forall2 listed_element entries elems ->
  exists bag,
    CerbereFxp.parseAttributes (JArray elems) = Normal bag
    /\ forall k, bag !! k = bag_value k (entries_of entries).
Proof.
  intros Hf.
  destruct (parseAttributes_loop_listed entries elems [] ∅ Hf) as (bag & Hloop & Hbag).
  exists bag. split.
  - rewrite parseAttributes_array. exact Hloop.
  - intros k. rewrite Hbag. destruct (bag_value k (entries_of entries)); [reflexivity|].
    apply lookup_empty.
Qed.

(** Past the envelope and a status of success, the listener goes for the
    first assertion. *)
Lemma dispatch_on_success (document elemResponse : jsval) (ticket : string) :
  path document ["Envelope"; "Body"; "Response"] = Normal elemResponse ->
  path elemResponse ["Status"; "StatusCode"; "@_Value"] = Normal (JString "ns2:Success") ->
  CerbereFxp.dispatch document ticket
  = (assertions ← get elemResponse "Assertion";
     assertion ← get_index assertions 0;
     elemAttributeStatement ← get assertion "AttributeStatement";
     subject ← get elemAttributeStatement "Subject";
     nameIdentifier ← get subject "NameIdentifier";
     userId ← get nameIdentifier "#text";
     if negb (truthy userId) then Normal (cb_failure (Error "No userId?")) else
     elemAttributes ← get elemAttributeStatement "Attribute";
     attributes ← CerbereFxp.parseAttributes elemAttributes;
     Normal (cb_success userId
               {| ext_username := userId; ext_attributes := attributes;
                  ext_ticket := ticket |})).
Proof.
  intros Hresp Hstatus.
  apply path_cons in Hresp as (envelope & Henv & Hresp).
  apply path_cons in Hresp as (body & Hbody & Hresp).
  apply path_cons in Hresp as (r & Hr & Hresp). simpl in Hresp. injection Hresp as ->.
  apply path_cons in Hstatus as (status & Hst & Hstatus).
  apply path_cons in Hstatus as (code & Hcode & Hstatus).
  apply path_cons in Hstatus as (value & Hvalue & Hstatus). simpl in Hstatus.
  injection Hstatus as ->.
  unfold CerbereFxp.dispatch.
  rewrite Henv; simpl. rewrite Hbody; simpl. rewrite Hr; simpl. rewrite Hst; simpl.
  rewrite Hcode; simpl. rewrite Hvalue; simpl. reflexivity.
Qed.

(** C1 fails on the code: fast-xml-parser, as [validate] calls it, renders an
    element that occurs once as that element and not as an array of one.
    For an answer of success with one [Assertion] element, the listener
    reads the member 0 of an object, finds nothing and throws a TypeError:
    the callback is not called.  For an answer of several assertions whose
    first attribute statement has one [Attribute] element, an object
    without length, the loop does not run: success is reported with an
    empty bag, in which the attribute is missing. *)
Theorem fxp_lone_elements_are_lost (response ticket : string)
    (document elemResponse : jsval) :
  fxp_parse response = inr document ->
  path document ["Envelope"; "Body"; "Response"] = Normal elemResponse ->
  path elemResponse ["Status"; "StatusCode"; "@_Value"] = Normal (JString "ns2:Success") ->
  (forall assertion,
     get elemResponse "Assertion" = Normal (JObject assertion) ->
     own_property "0" assertion = None ->
     CerbereFxp.on_end response ticket = Throw (cannot_read "AttributeStatement"))
  /\ (forall first others statement userId entry attribute,
        get elemResponse "Assertion" = Normal (JArray (first :: others)) ->
        get first "AttributeStatement" = Normal statement ->
        path statement ["Subject"; "NameIdentifier"; "#text"] = Normal userId ->
        truthy userId = true ->
        get statement "Attribute" = Normal (JObject attribute) ->
        attribute_element entry (JObject attribute) ->
        own_property "length" attribute = None ->
        CerbereFxp.on_end response ticket
        = Normal (cb_success userId
                    {| ext_username := userId; ext_attributes := ∅;
                       ext_ticket := ticket |})).
Proof.
  intros Hparse Hresp Hstatus.
  unfold CerbereFxp.on_end. rewrite Hparse.
  rewrite (dispatch_on_success _ _ _ Hresp Hstatus). split.
  - intros assertion Hass Hzero. rewrite Hass. simpl.
    change (pretty (Z.of_nat 0)) with "0". rewrite Hzero. reflexivity.
  - intros first others statement userId entry attribute Hass Hstmt Huser Htruthy
      Hattr _ Hlen.
    apply path_cons in Huser as (subject & Hsubj & Huser).
    apply path_cons in Huser as (nameId & HnameId & Huser).
    apply path_cons in Huser as (u & Hu & Huser). simpl in Huser. injection Huser as ->.
    rewrite Hass. simpl. rewrite Hstmt. simpl. rewrite Hsubj. simpl.
    rewrite HnameId. simpl. rewrite Hu. simpl. rewrite Htruthy. simpl.
    rewrite Hattr. simpl.
    unfold CerbereFxp.parseAttributes. simpl. rewrite Hlen. reflexivity.
Qed.
End ParseAttributes.

(** ** The attribute normaliser *)

Section Normaliser.
Context `{Platform}.

Lemma js_get_delete (a : gmap string jsval) (k k' : string) :
  js_get (delete k a) k' = if decide (k = k') then JUndefined else js_get a k'.
Proof.
  unfold js_get. destruct (decide (k = k')) as [->|Hne].
  - rewrite lookup_delete_eq. reflexivity.
  - rewrite lookup_delete_ne by done. reflexivity.
Qed.

Lemma agree_delete (keys : list string) (a1 a2 : gmap string jsval) (k : string) :
  agree keys a1 a2 -> agree keys (delete k a1) (delete k a2).
Proof.
  intros Ha k' Hk'. rewrite !js_get_delete. destruct (decide (k = k')); auto.
Qed.

Lemma agree_weaken (keys keys' : list string) (a1 a2 : gmap string jsval) :
  (forall k, k ∈ keys' -> k ∈ keys) -> agree keys a1 a2 -> agree keys' a1 a2.
Proof. intros Hsub Ha k Hk. apply Ha, Hsub, Hk. Qed.

Lemma answers_sub (a a0 : gmap string jsval) (k : string) :
  a ⊆ a0 -> answers a0 k (js_get a k).
Proof.
  intros Hsub. unfold answers, js_get. destruct (a !! k) as [v|] eqn:Hk; simpl.
  - right. eapply lookup_weaken; eassumption.
  - left. reflexivity.
Qed.

Lemma delete_sub (a a0 : gmap string jsval) (k : string) : a ⊆ a0 -> delete k a ⊆ a0.
Proof. intros Hsub. etrans; [apply delete_subseteq | exact Hsub]. Qed.

(** *** The [name] section *)

Lemma map_name_sub (names : list (string * string)) :
  forall (name a a0 : gmap string jsval),
    a ⊆ a0 -> (map_name names (name, a)).2 ⊆ a0.
Proof.
  induction names as [|[nameKey key] names IH]; intros name a a0 Hsub; [exact Hsub|].
  simpl. apply IH, delete_sub, Hsub.
Qed.

Lemma map_name_agree (keys : list string) (names : list (string * string)) :
  (forall k, k ∈ map snd names -> k ∈ keys) ->
  forall (name a1 a2 : gmap string jsval),
    agree keys a1 a2 ->
    (map_name names (name, a1)).1 = (map_name names (name, a2)).1
    /\ agree keys (map_name names (name, a1)).2 (map_name names (name, a2)).2.
Proof.
  induction names as [|[nameKey key] names IH]; intros Hkeys name a1 a2 Ha.
  - split; [reflexivity | exact Ha].
  - simpl. rewrite (Ha key) by (apply Hkeys; simpl; left).
    apply IH.
    + intros k Hk. apply Hkeys. simpl. right. exact Hk.
    + apply agree_delete, Ha.
Qed.

Lemma map_name_untouched (names : list (string * string)) (sub : string) :
  sub ∉ map fst names ->
  forall (name a : gmap string jsval),
    js_get (map_name names (name, a)).1 sub = js_get name sub.
Proof.
  induction names as [|[nameKey key] names IH]; intros Hsub name a; [reflexivity|].
  simpl in *. rewrite IH.
  - unfold js_get. rewrite lookup_insert_ne; [reflexivity|].
    intros ->. apply Hsub. left.
  - intros Hin. apply Hsub. right. exact Hin.
Qed.

(** *** The list sections *)

Lemma map_emails_entries (a0 : gmap string jsval) (emails : list KeyType) :
  forall (acc : list ValueType) (seen : list KeyType) (a : gmap string jsval),
    a ⊆ a0 -> Forall2 (value_entry a0) acc seen ->
    Forall2 (value_entry a0) (map_emails emails (acc, a)).1 (seen ++ emails)
    /\ (map_emails emails (acc, a)).2 ⊆ a0.
Proof.
  induction emails as [|email emails IH]; intros acc seen a Hsub Hacc.
  - simpl. rewrite app_nil_r. split; assumption.
  - simpl. replace (seen ++ email :: emails)%list with ((seen ++ [email]) ++ emails)%list
      by (rewrite <- app_assoc; reflexivity).
    apply IH; [apply delete_sub, Hsub|].
    apply Forall2_app; [exact Hacc|]. constructor; [|constructor].
    split; [reflexivity | apply answers_sub, Hsub].
Qed.

Lemma map_telephones_entries (a0 : gmap string jsval) (telephones : list KeyType) :
  forall (acc : list ValueType) (seen : list KeyType) (a : gmap string jsval),
    a ⊆ a0 -> Forall2 (value_entry a0) acc seen ->
    Forall2 (value_entry a0) (map_telephones telephones (acc, a)).1 (seen ++ telephones)
    /\ (map_telephones telephones (acc, a)).2 ⊆ a0.
Proof.
  induction telephones as [|telephone telephones IH]; intros acc seen a Hsub Hacc.
  - simpl. rewrite app_nil_r. split; assumption.
  - simpl. replace (seen ++ telephone :: telephones)%list
      with ((seen ++ [telephone]) ++ telephones)%list
      by (rewrite <- app_assoc; reflexivity).
    apply IH; [apply delete_sub, Hsub|].
    apply Forall2_app; [exact Hacc|]. constructor; [|constructor].
    split; [reflexivity | apply answers_sub, Hsub].
Qed.

Lemma map_adresses_entries (a a0 : gmap string jsval) (adresses : list AdresseMap) :
  a ⊆ a0 ->
  forall (acc : list Adresse) (seen : list AdresseMap),
    Forall2 (adresse_entry a0) acc seen ->
    Forall2 (adresse_entry a0) (map_adresses a adresses acc) (seen ++ adresses).
Proof.
  intros Hsub. induction adresses as [|adresse adresses IH]; intros acc seen Hacc.
  - simpl. rewrite app_nil_r. exact Hacc.
  - simpl. replace (seen ++ adresse :: adresses)%list
      with ((seen ++ [adresse]) ++ adresses)%list
      by (rewrite <- app_assoc; reflexivity).
    apply IH. apply Forall2_app; [exact Hacc|]. constructor; [|constructor].
    repeat split; simpl; try reflexivity; apply answers_sub, Hsub.
Qed.

Lemma map_organizations_entries (a a0 : gmap string jsval)
    (organizations : list OrganizationMap) :
  a ⊆ a0 ->
  forall (acc : list Organization) (seen : list OrganizationMap),
    Forall2 (organization_entry a0) acc seen ->
    Forall2 (organization_entry a0) (map_organizations a organizations acc)
      (seen ++ organizations).
Proof.
  intros Hsub. induction organizations as [|organization organizations IH];
    intros acc seen Hacc.
  - simpl. rewrite app_nil_r. exact Hacc.
  - simpl. replace (seen ++ organization :: organizations)%list
      with ((seen ++ [organization]) ++ organizations)%list
      by (rewrite <- app_assoc; reflexivity).
    apply IH. apply Forall2_app; [exact Hacc|]. constructor; [|constructor].
    repeat split; simpl; try reflexivity; apply answers_sub, Hsub.
Qed.

(** Where [normalize] returns a profile, and what it is made of. *)
Lemma normalize_Normal (propertyMap : PropertyMap) (id0 : jsval)
    (attributes : gmap string jsval) :
  lists_configured propertyMap ->
  exists emails telephones adresses organizations,
    pm_emails propertyMap = Some emails
    /\ pm_telephones propertyMap = Some telephones
    /\ pm_adresses propertyMap = Some adresses
    /\ pm_organizations propertyMap = Some organizations
    /\ let named := map_name (default [] (pm_name propertyMap)) (default_name, attributes) in
       let mailed := map_emails emails ([], named.2) in
       let phoned := map_telephones telephones ([], mailed.2) in
       normalize propertyMap id0 attributes
       = Normal {|
           p_provider := match pm_provider propertyMap with
                         | Some key => js_get attributes key
                         | None => JString "Cerbere"
                         end;
           p_id := match pm_id propertyMap with
                   | Some key => js_get attributes key
                   | None => id0
                   end;
           p_name := <["displayName" := displayName named.1]> named.1;
           p_emails := mailed.1;
           p_telephones := phoned.1;
           p_adresses := map_adresses phoned.2 adresses [];
           p_organizations := map_organizations phoned.2 organizations [];
           p_others := map_others phoned.2 (pm_others propertyMap) ∅ |}.
Proof.
  intros ([emails He] & [telephones Ht] & [adresses Ha] & [organizations Ho]).
  exists emails, telephones, adresses, organizations.
  repeat (split; [assumption|]).
  unfold normalize. rewrite He, Ht, Ha, Ho. simpl.
  destruct (map_name _ _) as [name a1]. simpl.
  destruct (map_emails _ _) as [em a2]. simpl.
  destruct (map_telephones _ _) as [tel a3]. reflexivity.
Qed.


(** *** Keys the property map does not refer to *)

Set Warnings "-clear-no-such-hyp".


Lemma map_emails_agree (keys : list string) (emails : list KeyType) :
  (forall k, k ∈ map kt_key emails -> k ∈ keys) ->
  forall (acc : list ValueType) (a1 a2 : gmap string jsval),
    agree keys a1 a2 ->
    (map_emails emails (acc, a1)).1 = (map_emails emails (acc, a2)).1
    /\ agree keys (map_emails emails (acc, a1)).2 (map_emails emails (acc, a2)).2.
Proof.
  induction emails as [|email emails IH]; intros Hkeys acc a1 a2 Ha.
  - split; [reflexivity | exact Ha].
  - simpl. rewrite (Ha (kt_key email)) by (apply Hkeys; simpl; left).
    apply IH.
    + intros k Hk. apply Hkeys. simpl. right. exact Hk.
    + apply agree_delete, Ha.
Qed.

Lemma map_telephones_agree (keys : list string) (telephones : list KeyType) :
  (forall k, k ∈ map kt_key telephones -> k ∈ keys) ->
  forall (acc : list ValueType) (a1 a2 : gmap string jsval),
    agree keys a1 a2 ->
    (map_telephones telephones (acc, a1)).1 = (map_telephones telephones (acc, a2)).1
    /\ agree keys (map_telephones telephones (acc, a1)).2
         (map_telephones telephones (acc, a2)).2.
Proof.
  induction telephones as [|telephone telephones IH]; intros Hkeys acc a1 a2 Ha.
  - split; [reflexivity | exact Ha].
  - simpl. rewrite (Ha (kt_key telephone)) by (apply Hkeys; simpl; left).
    apply IH.
    + intros k Hk. apply Hkeys. simpl. right. exact Hk.
    + apply agree_delete, Ha.
Qed.

Lemma map_adresses_agree (keys : list string) (a1 a2 : gmap string jsval)
    (adresses : list AdresseMap) :
  agree keys a1 a2 ->
  (forall k, k ∈ concat (map adresse_keys adresses) -> k ∈ keys) ->
  forall acc, map_adresses a1 adresses acc = map_adresses a2 adresses acc.
Proof.
  intros Ha. induction adresses as [|adresse adresses IH]; intros Hkeys acc;
    [reflexivity|].
  simpl. simpl in Hkeys.
  rewrite (Ha (ak_street (am_key adresse))), (Ha (ak_town (am_key adresse))),
    (Ha (ak_streetcode (am_key adresse))), (Ha (ak_country (am_key adresse)))
    by (apply Hkeys; set_solver).
  apply IH. intros k Hk. apply Hkeys. set_solver.
Qed.

Lemma map_organizations_agree (keys : list string) (a1 a2 : gmap string jsval)
    (organizations : list OrganizationMap) :
  agree keys a1 a2 ->
  (forall k, k ∈ concat (map organization_keys organizations) -> k ∈ keys) ->
  forall acc, map_organizations a1 organizations acc
              = map_organizations a2 organizations acc.
Proof.
  intros Ha. induction organizations as [|organization organizations IH];
    intros Hkeys acc; [reflexivity|].
  simpl. simpl in Hkeys.
  rewrite (Ha (ok_code (om_key organization))), (Ha (ok_name (om_key organization)))
    by (apply Hkeys; set_solver).
  apply IH. intros k Hk. apply Hkeys. set_solver.
Qed.

Lemma map_others_agree (keys : list string) (a1 a2 : gmap string jsval)
    (others : list (string * string)) :
  agree keys a1 a2 ->
  (forall k, k ∈ map snd others -> k ∈ keys) ->
  forall acc, map_others a1 others acc = map_others a2 others acc.
Proof.
  intros Ha. induction others as [|[property key] others IH]; intros Hkeys acc;
    [reflexivity|].
  simpl. rewrite (Ha key) by (apply Hkeys; simpl; left).
  apply IH. intros k Hk. apply Hkeys. simpl. right. exact Hk.
Qed.

(** [normalize] reads the bag at the keys the property map refers to, and
    nowhere else. *)
Lemma normalize_agree (propertyMap : PropertyMap) (id0 : jsval)
    (a1 a2 : gmap string jsval) :
  agree (referenced propertyMap) a1 a2 ->
  normalize propertyMap id0 a1 = normalize propertyMap id0 a2.
Proof.
  intros Ha. unfold normalize.
  assert (Hprov : match pm_provider propertyMap with
                  | Some key => js_get a1 key
                  | None => JString "Cerbere"
                  end
                  = match pm_provider propertyMap with
                    | Some key => js_get a2 key
                    | None => JString "Cerbere"
                    end).
  { destruct (pm_provider propertyMap) as [key|] eqn:Hp; [|reflexivity].
    apply Ha. unfold referenced. rewrite Hp. set_solver. }
  assert (Hid : match pm_id propertyMap with
                | Some key => js_get a1 key
                | None => id0
                end
                = match pm_id propertyMap with
                  | Some key => js_get a2 key
                  | None => id0
                  end).
  { destruct (pm_id propertyMap) as [key|] eqn:Hp; [|reflexivity].
    apply Ha. unfold referenced. rewrite Hp. set_solver. }
  rewrite Hprov, Hid. clear Hprov Hid.
  destruct (map_name_agree (referenced propertyMap) (default [] (pm_name propertyMap))
              ltac:(unfold referenced; set_solver) default_name a1 a2 Ha) as [Hn Ha1].
  destruct (map_name _ (default_name, a1)) as [n1 b1].
  destruct (map_name _ (default_name, a2)) as [n2 b2].
  simpl in Hn, Ha1. subst n2.
  destruct (pm_emails propertyMap) as [emails|] eqn:He; [simpl|reflexivity].
  destruct (map_emails_agree (referenced propertyMap) emails
              ltac:(unfold referenced; rewrite He; set_solver) [] b1 b2 Ha1) as [Hm Ha2].
  destruct (map_emails emails ([], b1)) as [m1 c1].
  destruct (map_emails emails ([], b2)) as [m2 c2].
  simpl in Hm, Ha2. subst m2.
  destruct (pm_telephones propertyMap) as [telephones|] eqn:Ht; [simpl|reflexivity].
  destruct (map_telephones_agree (referenced propertyMap) telephones
              ltac:(unfold referenced; rewrite Ht; set_solver) [] c1 c2 Ha2) as [Hp Ha3].
  destruct (map_telephones telephones ([], c1)) as [t1 d1].
  destruct (map_telephones telephones ([], c2)) as [t2 d2].
  simpl in Hp, Ha3. subst t2.
  destruct (pm_adresses propertyMap) as [adresses|] eqn:Had; [simpl|reflexivity].
  destruct (pm_organizations propertyMap) as [organizations|] eqn:Ho; [simpl|reflexivity].
  rewrite (map_adresses_agree (referenced propertyMap) d1 d2 adresses Ha3)
    by (unfold referenced; rewrite Had; set_solver).
  rewrite (map_organizations_agree (referenced propertyMap) d1 d2 organizations Ha3)
    by (unfold referenced; rewrite Ho; set_solver).
  rewrite (map_others_agree (referenced propertyMap) d1 d2 (pm_others propertyMap) Ha3)
    by (unfold referenced; set_solver).
  reflexivity.
Qed.

Lemma normalize_id_mapped (propertyMap : PropertyMap) (key : string) (id0 id0' : jsval)
    (attributes : gmap string jsval) :
  pm_id propertyMap = Some key ->
  normalize propertyMap id0 attributes = normalize propertyMap id0' attributes.
Proof. intros Hid. unfold normalize. rewrite Hid. reflexivity. Qed.

(** C5, as the code has it: two validations whose attribute bags read alike
    at every key the property map refers to, and at the key [id] when the
    map has no [id] of its own, end in the same actions, with the same
    profile; this holds of both versions of [authenticate]. *)
Theorem unreferenced_attributes_are_dropped (self : Strategy)
    (propertyMap : PropertyMap) (login : string -> string) (req : Request) (now : Z)
    (username : jsval) (e1 e2 : extended) :
  st_propertyMap self = Some propertyMap ->
  agree (referenced propertyMap) (ext_attributes e1) (ext_attributes e2) ->
  (pm_id propertyMap = None ->
   js_get (ext_attributes e1) "id" = js_get (ext_attributes e2) "id") ->
  CerbereStrategy.authenticate self req now (cb_success username e1)
  = CerbereStrategy.authenticate self req now (cb_success username e2)
  /\ CerbereStrategy.authenticate_async self login req now (inr (ext_attributes e1))
     = CerbereStrategy.authenticate_async self login req now (inr (ext_attributes e2)).
Proof.
  intros Hpm Ha Hid.
  assert (Hn : forall i1 i2,
             (pm_id propertyMap = None -> i1 = i2) ->
             normalize propertyMap i1 (ext_attributes e1)
             = normalize propertyMap i2 (ext_attributes e2)).
  { intros i1 i2 Hi. destruct (pm_id propertyMap) as [key|] eqn:Hk.
    - rewrite (normalize_id_mapped propertyMap key i1 i2) by exact Hk.
      apply normalize_agree, Ha.
    - rewrite (Hi eq_refl). apply normalize_agree, Ha. }
  unfold CerbereStrategy.authenticate, CerbereStrategy.authenticate_async.
  rewrite Hpm. simpl.
  rewrite (Hn (js_or (js_get (ext_attributes e1) "id") username)
              (js_or (js_get (ext_attributes e2) "id") username))
    by (intros Hnone; rewrite (Hid Hnone); reflexivity).
  rewrite (Hn (js_get (ext_attributes e1) "id") (js_get (ext_attributes e2) "id"))
    by exact Hid.
  split; reflexivity.
Qed.

End Normaliser.

(** ** The retry after a failed validation *)

Lemma replace_first_skip (match_here : string -> option (string * string))
    (s rest : string) :
  matches_nowhere match_here s rest = true ->
  replace_first match_here (s ++ rest) = s ++ replace_first match_here rest.
Proof.
  induction s as [|c s IH]; intros Hno; [reflexivity|].
  change (String c s ++ rest) with (String c (s ++ rest)) in *.
  cbn [matches_nowhere replace_first] in *.
  change (String c s ++ rest) with (String c (s ++ rest)) in *.
  destruct (match_here (String c (s ++ rest))); [discriminate Hno|].
  rewrite IH by exact Hno. reflexivity.
Qed.

Lemma replace_first_nowhere (match_here : string -> option (string * string))
    (s : string) :
  match_here EmptyString = None ->
  matches_nowhere match_here s EmptyString = true ->
  replace_first match_here s = s.
Proof.
  intros Hempty. induction s as [|c s IH]; intros Hno.
  - simpl. rewrite Hempty. reflexivity.
  - cbn [matches_nowhere replace_first] in *.
    assert (Happ : forall r, r ++ EmptyString = r).
    { clear. induction r as [|a r IHr]; [reflexivity|].
      change (String a r ++ EmptyString) with (String a (r ++ EmptyString)).
      rewrite IHr. reflexivity. }
    rewrite Happ in Hno.
    destruct (match_here (String c s)); [discriminate Hno|].
    rewrite IH; [reflexivity|].
    destruct s as [|c' s]; [reflexivity|].
    cbn [matches_nowhere] in Hno |- *. exact Hno.
Qed.

Lemma strip_prefix_app (p s : string) : strip_prefix p (p ++ s) = Some s.
Proof.
  induction p as [|a p IH]; [reflexivity|].
  simpl. rewrite Ascii.eqb_refl. exact IH.
Qed.

Lemma span_run (f : ascii -> bool) (run rest : string) :
  all_chars f run = true -> stops f rest = true -> span f (run ++ rest) = (run, rest).
Proof.
  intros Hrun Hstop. induction run as [|c run IH].
  - simpl. destruct rest as [|c rest]; [reflexivity|].
    simpl in *. destruct (f c); [discriminate Hstop | reflexivity].
  - simpl in *. apply andb_prop in Hrun as [Hc Hrun].
    rewrite Hc, (IH Hrun). reflexivity.
Qed.

Lemma ticket_here_replaces (token : string) (c : ascii) (ticket rest : string) :
  Ascii.eqb c "?" || Ascii.eqb c "&" = true ->
  ticket <> EmptyString ->
  all_chars is_ticket_char ticket = true ->
  stops is_ticket_char rest = true ->
  ticket_here token (String c ("ticket=" ++ ticket ++ rest))
  = Some (String c ("_cas_retry=" ++ token), rest).
Proof.
  intros Hc Hne Hrun Hstop. unfold ticket_here. rewrite Hc.
  rewrite (strip_prefix_app "ticket=" (ticket ++ rest)).
  rewrite (span_run _ _ _ Hrun Hstop).
  destruct ticket; [contradiction | reflexivity].
Qed.

Lemma replace_first_here (match_here : string -> option (string * string))
    (s replacement rest : string) :
  match_here s = Some (replacement, rest) ->
  replace_first match_here s = replacement ++ rest.
Proof. intros Hm. destruct s; simpl; rewrite Hm; reflexivity. Qed.

Lemma cas_retry_here_removes (digits rest : string) :
  digits <> EmptyString ->
  all_chars is_digit digits = true ->
  stops is_digit rest = true ->
  cas_retry_here ("_cas_retry=" ++ digits ++ rest)
  = Some (EmptyString, match rest with
                       | String "&" r => r
                       | _ => rest
                       end).
Proof.
  intros Hne Hrun Hstop. unfold cas_retry_here.
  rewrite (strip_prefix_app "_cas_retry=" (digits ++ rest)).
  rewrite (span_run _ _ _ Hrun Hstop).
  destruct digits; [contradiction | reflexivity].
Qed.

Lemma cas_retry_here_begins (c : ascii) (s : string) (m : string * string) :
  cas_retry_here (String c s) = Some m -> Ascii.eqb c "_" = true.
Proof.
  unfold cas_retry_here.
  change (strip_prefix "_cas_retry=" (String c s))
    with (if Ascii.eqb "_" c then strip_prefix "cas_retry=" s else None).
  destruct (Ascii.eqb "_" c) eqn:Hc.
  - intros _. rewrite Ascii.eqb_sym. exact Hc.
  - intros Hm. discriminate Hm.
Qed.

Lemma ticket_here_begins (token : string) (c : ascii) (s : string) (m : string * string) :
  ticket_here token (String c s) = Some m -> Ascii.eqb c "?" || Ascii.eqb c "&" = true.
Proof.
  unfold ticket_here. destruct (Ascii.eqb c "?" || Ascii.eqb c "&"); [reflexivity|].
  intros Hm. discriminate Hm.
Qed.

(** A pattern whose matches begin with a character of a class matches
    nowhere in a text without such characters. *)
Lemma matches_nowhere_plain (match_here : string -> option (string * string))
    (first : ascii -> bool) :
  (forall c s m, match_here (String c s) = Some m -> first c = true) ->
  forall p rest : string,
    all_chars (fun c => negb (first c)) p = true ->
    matches_nowhere match_here p rest = true.
Proof.
  intros Hfirst p rest. induction p as [|c p IH]; intros Hp; [reflexivity|].
  simpl in Hp. apply andb_prop in Hp as [Hc Hp].
  cbn [matches_nowhere].
  change (String c p ++ rest) with (String c (p ++ rest)).
  destruct (match_here (String c (p ++ rest))) as [m|] eqn:Hm.
  - rewrite (Hfirst _ _ _ Hm) in Hc. discriminate Hc.
  - apply IH, Hp.
Qed.

Lemma all_chars_weaken (f g : ascii -> bool) (s : string) :
  (forall c, f c = true -> g c = true) -> all_chars f s = true -> all_chars g s = true.
Proof.
  intros Hfg. induction s as [|c s IH]; [reflexivity|].
  simpl. intros Hs. apply andb_prop in Hs as [Hc Hs].
  rewrite (Hfg c Hc), (IH Hs). reflexivity.
Qed.

Lemma plain_path_marker (p : string) :
  plain_path p = true -> all_chars (fun c => negb (Ascii.eqb c "_")) p = true.
Proof.
  apply all_chars_weaken. intros c. destruct (Ascii.eqb c "_"); [discriminate | reflexivity].
Qed.

Lemma plain_path_ticket (p : string) :
  plain_path p = true ->
  all_chars (fun c => negb (Ascii.eqb c "?" || Ascii.eqb c "&")) p = true.
Proof.
  apply all_chars_weaken. intros c.
  destruct (Ascii.eqb c "_"); [discriminate|]. simpl. intros Hc. exact Hc.
Qed.

Section Retry.
Context `{Platform}.

(** The redirect target when the request URL, the old marker removed, holds
    the ticket as the first match of the pattern. *)
Lemma retry_url_replaces_ticket (url before : string) (c : ascii)
    (ticket rest : string) (token : Z) :
  replace_first cas_retry_here url = before ++ String c ("ticket=" ++ ticket ++ rest) ->
  matches_nowhere (ticket_here (to_string (JNumber token))) before
    (String c ("ticket=" ++ ticket ++ rest)) = true ->
  Ascii.eqb c "?" || Ascii.eqb c "&" = true ->
  ticket <> EmptyString ->
  all_chars is_ticket_char ticket = true ->
  stops is_ticket_char rest = true ->
  CerbereStrategy.retry_url url token
  = before ++ String c ("_cas_retry=" ++ to_string (JNumber token) ++ rest).
Proof.
  intros Hurl Hno Hc Hne Hrun Hstop. unfold CerbereStrategy.retry_url.
  rewrite Hurl, (replace_first_skip _ _ _ Hno).
  change (replace_first ?m (String c ?s))
    with (match m (String c s) with
          | Some (replacement, rest) => replacement ++ rest
          | None => String c (replace_first m s)
          end).
  rewrite (ticket_here_replaces _ c ticket rest Hc Hne Hrun Hstop).
  reflexivity.
Qed.

(** A validated ticket: the profile that [normalize] builds is handed to the
    verify callback, together with the subject. *)
Lemma authenticate_hands_profile (self : Strategy) (propertyMap : PropertyMap)
    (req : Request) (now : Z) (username : jsval) (e : extended) (ticket : jsval)
    (service : string) (profile : Profile) :
  CerbereStrategy.ticket_and_service req = Normal (ticket, service) ->
  truthy ticket = true ->
  st_propertyMap self = Some propertyMap ->
  normalize propertyMap (js_or (js_get (ext_attributes e) "id") username)
    (ext_attributes e) = Normal profile ->
  CerbereStrategy.authenticate self req now (cb_success username e)
  = {| performed := [verify (if st_passReqToCallback self then Some req else None)
                            username profile];
       thrown := None |}.
Proof.
  intros Hts Hticket Hpm Hn. unfold CerbereStrategy.authenticate.
  rewrite Hts, Hticket, Hpm. simpl. rewrite Hn. reflexivity.
Qed.

(** The version of [part_001] goes on after the catch block and ends with a
    TypeError when it reads the attributes of the empty result. *)
Lemma authenticate_async_failure_throws (self : Strategy) (login : string -> string)
    (req : Request) (now : Z) (err : error) (ticket : jsval) (service : string) :
  CerbereStrategy.ticket_and_service req = Normal (ticket, service) ->
  truthy ticket = true ->
  thrown (CerbereStrategy.authenticate_async self login req now (inl err))
  = Some (cannot_read "id").
Proof.
  intros Hts Hticket. unfold CerbereStrategy.authenticate_async.
  rewrite Hts, Hticket. reflexivity.
Qed.

(** The redirect target when the request URL holds no old marker and holds
    the ticket as the first match of the pattern. *)
Lemma retry_url_without_marker (url before : string) (c : ascii)
    (ticket rest : string) (token : Z) :
  matches_nowhere cas_retry_here url EmptyString = true ->
  url = before ++ String c ("ticket=" ++ ticket ++ rest) ->
  matches_nowhere (ticket_here (to_string (JNumber token))) before
    (String c ("ticket=" ++ ticket ++ rest)) = true ->
  Ascii.eqb c "?" || Ascii.eqb c "&" = true ->
  ticket <> EmptyString ->
  all_chars is_ticket_char ticket = true ->
  stops is_ticket_char rest = true ->
  CerbereStrategy.retry_url url token
  = before ++ String c ("_cas_retry=" ++ to_string (JNumber token) ++ rest).
Proof.
  intros Hmarker Hurl. apply retry_url_replaces_ticket.
  rewrite (replace_first_nowhere cas_retry_here url eq_refl Hmarker). exact Hurl.
Qed.

(** The redirect target when the request URL holds an old marker and the
    ticket after it, as the first parameters of its query. *)
Lemma retry_url_with_marker (path digits ticket rest : string) (token : Z) :
  plain_path path = true ->
  digits <> EmptyString ->
  all_chars is_digit digits = true ->
  ticket <> EmptyString ->
  all_chars is_ticket_char ticket = true ->
  stops is_ticket_char rest = true ->
  CerbereStrategy.retry_url
    (path ++ "?_cas_retry=" ++ digits ++ "&ticket=" ++ ticket ++ rest) token
  = path ++ "?_cas_retry=" ++ to_string (JNumber token) ++ rest.
Proof.
  intros Hpath Hne Hdigits Hticket Hrun Hstop. unfold CerbereStrategy.retry_url.
  assert (Hfirst : replace_first cas_retry_here
                     (path ++ "?_cas_retry=" ++ digits ++ "&ticket=" ++ ticket ++ rest)
                   = path ++ String "?" ("ticket=" ++ ticket ++ rest)).
  { rewrite replace_first_skip
      by (apply (matches_nowhere_plain _ _ cas_retry_here_begins), plain_path_marker, Hpath).
    f_equal.
    change ("?_cas_retry=" ++ digits ++ "&ticket=" ++ ticket ++ rest)
      with (String "?" ("_cas_retry=" ++ digits ++ String "&" ("ticket=" ++ ticket ++ rest))).
    change (replace_first ?m (String "?" ?u))
      with (match m (String "?" u) with
            | Some (replacement, rest) => replacement ++ rest
            | None => String "?" (replace_first m u)
            end).
    change (cas_retry_here (String "?" ?u)) with (@None (string * string)).
    f_equal.
    apply (replace_first_here cas_retry_here _ EmptyString ("ticket=" ++ ticket ++ rest)).
    apply (cas_retry_here_removes digits (String "&" ("ticket=" ++ ticket ++ rest)));
      assumption || reflexivity. }
  rewrite Hfirst.
  rewrite replace_first_skip
    by (apply (matches_nowhere_plain _ _ (ticket_here_begins _)), plain_path_ticket, Hpath).
  change (replace_first ?m (String "?" ?u))
    with (match m (String "?" u) with
          | Some (replacement, rest) => replacement ++ rest
          | None => String "?" (replace_first m u)
          end).
  rewrite (ticket_here_replaces _ "?" ticket rest eq_refl Hticket Hrun Hstop).
  reflexivity.
Qed.

(** X27: after a failed validation of a request with a ticket, a marker equal
    to the token of the current window makes [authenticate] call [fail] with
    the error and redirect nowhere; an absent or different marker makes it
    redirect once, with status 307.  Where the request URL holds no old
    marker and its first ticket parameter has a value of letters, digits,
    underscores, dots and hyphens, the target is the URL with the marker of
    the current token in the place of that parameter.  The version of
    [part_001] performs the same action and then throws a TypeError. *)
Theorem retry_once_per_window (self : Strategy) (login : string -> string)
    (req : Request) (now : Z) (err : error) (validated : callback)
    (ticket : jsval) (service : string) :
  CerbereStrategy.ticket_and_service req = Normal (ticket, service) ->
  truthy ticket = true ->
  validated = cb_error err \/ validated = cb_failure err ->
  let token := retry_token now in
  let marker := js_get (req_query req) "_cas_retry" in
  let target := CerbereStrategy.retry_url (request_url req) token in
  (loose_eq_number marker token = true ->
     CerbereStrategy.authenticate self req now validated
     = {| performed := [fail err]; thrown := None |}
     /\ CerbereStrategy.authenticate_async self login req now (inl err)
        = {| performed := [fail err]; thrown := Some (cannot_read "id") |})
  /\ (req_query req !! "_cas_retry" = None \/ loose_eq_number marker token = false ->
        CerbereStrategy.authenticate self req now validated
        = {| performed := [redirect target 307]; thrown := None |}
        /\ CerbereStrategy.authenticate_async self login req now (inl err)
           = {| performed := [redirect target 307]; thrown := Some (cannot_read "id") |})
  /\ (forall before c artifact rest,
        matches_nowhere cas_retry_here (request_url req) EmptyString = true ->
        request_url req = before ++ String c ("ticket=" ++ artifact ++ rest) ->
        matches_nowhere (ticket_here (to_string (JNumber token))) before
          (String c ("ticket=" ++ artifact ++ rest)) = true ->
        Ascii.eqb c "?" || Ascii.eqb c "&" = true ->
        artifact <> EmptyString ->
        all_chars is_ticket_char artifact = true ->
        stops is_ticket_char rest = true ->
        target = before ++ String c ("_cas_retry=" ++ to_string (JNumber token) ++ rest)).
Proof.
  intros Hts Hticket Hval token marker target.
  assert (Hauth : CerbereStrategy.authenticate self req now validated
                  = {| performed := CerbereStrategy.retry req now err; thrown := None |}).
  { unfold CerbereStrategy.authenticate. rewrite Hts, Hticket. simpl.
    destruct Hval as [-> | ->]; reflexivity. }
  assert (Hasync : CerbereStrategy.authenticate_async self login req now (inl err)
                   = {| performed := CerbereStrategy.retry req now err;
                        thrown := Some (cannot_read "id") |}).
  { unfold CerbereStrategy.authenticate_async. rewrite Hts, Hticket. reflexivity. }
  rewrite Hauth, Hasync. unfold CerbereStrategy.retry. fold token marker target.
  split; [|split].
  - intros ->. split; reflexivity.
  - intros [Hnone | Hne].
    + assert (Hm : marker = JUndefined).
      { unfold marker, js_get. rewrite Hnone. reflexivity. }
      rewrite Hm. split; reflexivity.
    + rewrite Hne. split; reflexivity.
  - intros before c artifact rest. apply retry_url_without_marker.
Qed.
End Retry.

(** ** The properties at concrete inputs *)

(** The example of C1: the answer for bob with one assertion and the one
    attribute UTILISATEUR.MEL makes the listener throw. *)
Lemma lone_bob_answer_throws :
  CerbereFxp.on_end (H := lone_bob_platform) "the answer for bob" "ST-1"
  = Throw (cannot_read "AttributeStatement").
Proof.
  apply (proj1 (fxp_lone_elements_are_lost (H := lone_bob_platform) "the answer for bob"
                  "ST-1" lone_bob_document
                  (JObject [("Status", success_status);
                            ("Assertion",
                             JObject [("AttributeStatement", lone_bob_statement)])])
                  eq_refl eq_refl eq_refl)
           [("AttributeStatement", lone_bob_statement)]);
    reflexivity.
Defined.

(** In the first of two assertions, the one attribute is lost. *)
Example lone_attribute_is_lost :
  CerbereFxp.on_end (H := lone_attribute_platform) "the answer for bob" "ST-1"
  = Normal (cb_success (JString "bob")
              {| ext_username := JString "bob"; ext_attributes := ∅;
                 ext_ticket := "ST-1" |}).
Proof. reflexivity. Qed.

(** With two attributes in the first of two assertions, both are in the bag. *)
Example fxp_bob_bag :
  CerbereFxp.dispatch (H := bob_platform) bob_document "ST-1"
  = Normal (cb_success (JString "bob")
              {| ext_username := JString "bob"; ext_attributes := bob_attributes;
                 ext_ticket := "ST-1" |}).
Proof. reflexivity. Qed.

(** A name that two entries have keeps the text of the second. *)
Example fxp_repeated_attribute :
  CerbereFxp.parseAttributes (H := bob_platform)
    (JArray [bob_attribute;
             attribute_of "UTILISATEUR.MEL" (text_element (JString "c@x.com"))])
  = Normal {["UTILISATEUR.MEL" := JString "c@x.com"]}.
Proof. reflexivity. Qed.

(** A first failure: no marker, the ticket gives way to the marker. *)
Lemma retry_first_failure :
  CerbereStrategy.authenticate (H := rejecting_platform)
    (example_strategy readme_propertyMap) (example_request "/cb?ticket=ST-1" [])
    1800000 (cb_failure stale_ticket)
  = {| performed := [redirect "/cb?_cas_retry=30" 307]; thrown := None |}.
Proof.
  destruct (retry_once_per_window (H := rejecting_platform)
              (example_strategy readme_propertyMap) (fun service => service)
              (example_request "/cb?ticket=ST-1" []) 1800000 stale_ticket
              (cb_failure stale_ticket) (JString "ST-1") "https://app.example.org/cb"
              eq_refl eq_refl (or_intror eq_refl)) as (_ & Hredirect & Hshape).
  destruct (Hredirect (or_introl eq_refl)) as [Hauth _].
  rewrite Hauth.
  rewrite (Hshape "/cb" "?"%char "ST-1" EmptyString eq_refl eq_refl eq_refl eq_refl
             ltac:(discriminate) eq_refl eq_refl).
  reflexivity.
Defined.

(** A second failure in the same window ends the attempt. *)
Example retry_second_failure :
  CerbereStrategy.authenticate (H := rejecting_platform)
    (example_strategy readme_propertyMap)
    (example_request "/cb?_cas_retry=30&ticket=ST-1" [("_cas_retry", JString "30")])
    1810000 (cb_failure stale_ticket)
  = {| performed := [fail stale_ticket]; thrown := None |}.
Proof. reflexivity. Qed.

(** A failure in a later window: the old marker gives way to the new one. *)
Example retry_later_failure :
  CerbereStrategy.authenticate (H := rejecting_platform)
    (example_strategy readme_propertyMap)
    (example_request "/cb?_cas_retry=30&ticket=ST-1" [("_cas_retry", JString "30")])
    1900000 (cb_failure stale_ticket)
  = {| performed := [redirect "/cb?_cas_retry=32" 307]; thrown := None |}.
Proof. reflexivity. Qed.

(** C2 fails on the code: the comment of the retry says that the ticket is
    removed before the request is tried again, and the pattern that removes
    it matches a value of letters, digits, underscores, dots and hyphens
    only.  The request /cb?ticket=%2Bx, whose ticket is +x and whose
    validation has failed, is redirected to its own URL, the ticket still
    in it and no marker: the same request comes back, at any time and
    whatever the error was.  The version of [part_001] does the same and
    then throws. *)
Theorem retry_keeps_unmatched_ticket (now : Z) (err : error) :
  CerbereStrategy.authenticate (H := plus_platform)
    (example_strategy readme_propertyMap) (example_request "/cb?ticket=%2Bx" [])
    now (cb_failure err)
  = {| performed := [redirect "/cb?ticket=%2Bx" 307]; thrown := None |}
  /\ CerbereStrategy.authenticate_async (H := plus_platform)
       (example_strategy readme_propertyMap) (fun service => service)
       (example_request "/cb?ticket=%2Bx" []) now (inl err)
     = {| performed := [redirect "/cb?ticket=%2Bx" 307];
          thrown := Some (cannot_read "id") |}.
Proof. split; reflexivity. Qed.

(** C4 fails as stated: the envelope of a ticket with XML special characters
    is not the envelope of the escaped ticket. *)
Lemma soapEnvelope_does_not_escape :
  soapEnvelope "id" "now" "<a>&" <> envelope_around "id" "now" (xml_escape "<a>&")
  /\ xml_escape "<a>&" = "&lt;a&gt;&amp;".
Proof.
  split; [|reflexivity].
  apply String.eqb_neq. vm_compute. reflexivity.
Qed.

Ltac list_cases H :=
  repeat (apply elem_of_cons in H as [-> | H]; [reflexivity|]);
  apply elem_of_nil in H; destruct H.

(** An attribute the README map does not refer to leaves the actions as they are. *)
Lemma readme_drops_unknown_attribute :
  CerbereStrategy.authenticate (H := bob_platform) (example_strategy readme_propertyMap)
    (example_request "/cb?ticket=ST-1" []) 0
    (cb_success (JString "bob") (bob_extended bob_attributes))
  = CerbereStrategy.authenticate (H := bob_platform) (example_strategy readme_propertyMap)
      (example_request "/cb?ticket=ST-1" []) 0
      (cb_success (JString "bob")
         (bob_extended (<["UTILISATEUR.SECRET" := JString "s3"]> bob_attributes))).
Proof.
  refine (proj1 (unreferenced_attributes_are_dropped (H := bob_platform)
                   (example_strategy readme_propertyMap) readme_propertyMap
                   (fun service => service) (example_request "/cb?ticket=ST-1" []) 0
                   (JString "bob") (bob_extended bob_attributes)
                   (bob_extended (<["UTILISATEUR.SECRET" := JString "s3"]> bob_attributes))
                   eq_refl _ _)).
  - intros k Hk. unfold referenced, readme_propertyMap in Hk. simpl in Hk.
    list_cases Hk.
  - intros Hnone. discriminate Hnone.
Defined.

(** C5 fails as stated: with a map that has no [id], the attribute [id], to
    which the map does not refer, becomes the [id] of the profile. *)
Lemma unreferenced_id_reaches_profile :
  agree (referenced propertyMap_without_id) ∅ {["id" := JString "root"]}
  /\ p_id <$> verified_profile
       (CerbereStrategy.authenticate (H := bob_platform)
          (example_strategy propertyMap_without_id)
          (example_request "/cb?ticket=ST-1" []) 0
          (cb_success (JString "bob") (bob_extended ∅)))
     = Some (JString "bob")
  /\ p_id <$> verified_profile
       (CerbereStrategy.authenticate (H := bob_platform)
          (example_strategy propertyMap_without_id)
          (example_request "/cb?ticket=ST-1" []) 0
          (cb_success (JString "bob") (bob_extended {["id" := JString "root"]})))
     = Some (JString "root").
Proof.
  split; [|split; reflexivity].
  intros k Hk. unfold referenced, propertyMap_without_id, readme_propertyMap in Hk.
  simpl in Hk. list_cases Hk.
Qed.

Lemma readme_lists_configured : lists_configured readme_propertyMap.
Proof. repeat split; eexists; reflexivity. Defined.



Example emails_of_readme :
  p_emails <$> verified_profile
    (CerbereStrategy.authenticate (H := bob_platform) (example_strategy readme_propertyMap)
       (example_request "/cb?ticket=ST-1" []) 0
       (cb_success (JString "bob") (bob_extended bob_attributes)))
  = Some [ {| e_value := JString "b@x.com"; e_type := JString "principal" |};
           {| e_value := JUndefined; e_type := JString "professionnel" |} ].
Proof. reflexivity. Qed.

(** C7 fails on the code: the README map has an [id]; the bag lacks the
    mapped attribute; the [id] of the profile handed to verify is undefined,
    not the subject bob. *)
Theorem id_fallback_is_overwritten :
  p_id <$> verified_profile
    (CerbereStrategy.authenticate (H := bob_platform) (example_strategy readme_propertyMap)
       (example_request "/cb?ticket=ST-1" []) 0
       (cb_success (JString "bob") (bob_extended bob_attributes)))
  = Some JUndefined.
Proof. reflexivity. Qed.


Example displayName_of_bob :
  (fun profile => js_get (p_name profile) "displayName")
    <$> verified_profile
          (CerbereStrategy.authenticate (H := bob_platform)
             (example_strategy readme_propertyMap)
             (example_request "/cb?ticket=ST-1" []) 0
             (cb_success (JString "bob") (bob_extended bob_attributes)))
  = Some (JString "undefined undefined Martin").
Proof. reflexivity. Qed.


(** A text that is well-formed XML and no SOAP answer. *)
Lemma html_answer_throws :
  CerbereFxp.on_end (H := stray_platform) "<html>not a SOAP answer</html>" "ST-1"
  = Throw (cannot_read "Body")
  /\ CerbereFxp.deliver (H := stray_platform) "ST-1" EmptyString
       [res_data "<html>not a SOAP answer</html>"; res_end]
     = {| effects := []; fault := Some (cannot_read "Body") |}.
Proof.
  exact (fxp_stray_answer_throws (H := stray_platform) "<html>not a SOAP answer</html>"
           "ST-1" stray_document (cannot_read "Body") eq_refl eq_refl).
Defined.

(** A text that the parser rejects is reported to the callback. *)
Example rejected_answer_is_reported :
  CerbereFxp.deliver (H := rejecting_platform) "ST-1" EmptyString
    [res_data "<a><b>"; res_data "</a>"; res_end]
  = {| effects := [call (cb_failure (Error "Closing tag expected"))]; fault := None |}.
Proof. reflexivity. Qed.

Lemma cheerio_client_example :
  exists this,
    CerbereCheerio.Cerbere (H := bob_platform) example_options = Normal this
    /\ CerbereCheerio.validate (H := bob_platform) this "ST-1"
         "https://app.example.org/cb" "id" "now" (fun _ _ => Normal [])
       = Throw (cannot_read "hostname").
Proof.
  eexists. split; [reflexivity|].
  apply (cheerio_validate_throws (H := bob_platform) example_options).
  reflexivity.
Defined.

(** * Further properties of the sources *)

(** ** The constructor of the clients *)

(** Only an object has a member that is a string. *)
Lemma get_member_of_object (o : jsval) (k u : string) :
  get o k = Normal (JString u) -> truthy o = true.
Proof.
  destruct o; simpl; intros Hg; try discriminate Hg; try reflexivity;
    case_bool_decide; discriminate Hg.
Qed.

Section Constructor.
Context `{Platform}.

(** What a constructed client was made from. *)
Lemma Cerbere_Normal_inv (options : jsval) (this : gmap string jsval) :
  CerbereFxp.Cerbere options = Normal this ->
  exists u protocol hostname pathname,
    get options "url" = Normal (JString u) /\ u <> EmptyString
    /\ get (url_parse u false) "protocol" = Normal protocol
    /\ loose_eq_string protocol "https:" = true
    /\ get (url_parse u false) "hostname" = Normal hostname
    /\ truthy hostname = true
    /\ get (url_parse u false) "pathname" = Normal pathname
    /\ this = <["base_path" := pathname]> (<["cerbere_url" := url_parse u false]> ∅).
Proof.
  unfold CerbereFxp.Cerbere, js_or. intros Hc.
  destruct (truthy options) eqn:Hopt.
  - destruct (get options "url") as [url|] eqn:Hurl; simpl in Hc; [|discriminate Hc].
    destruct (truthy url) eqn:Htu; simpl in Hc; [|discriminate Hc].
    destruct url as [| |b|n|u|items|members]; simpl in Hc; try discriminate Hc.
    destruct (get (url_parse u false) "protocol") as [protocol|] eqn:Hp;
      simpl in Hc; [|discriminate Hc].
    destruct (loose_eq_string protocol "https:") eqn:Hhttps; simpl in Hc;
      [|discriminate Hc].
    destruct (get (url_parse u false) "hostname") as [hostname|] eqn:Hh;
      simpl in Hc; [|discriminate Hc].
    destruct (truthy hostname) eqn:Hth; simpl in Hc; [|discriminate Hc].
    destruct (get (url_parse u false) "pathname") as [pathname|] eqn:Hpn;
      simpl in Hc; [|discriminate Hc].
    injection Hc as <-. exists u, protocol, hostname, pathname.
    repeat split; try assumption; try reflexivity.
    intros ->. discriminate Htu.
  - simpl in Hc. discriminate Hc.
Qed.

(** X1: the constructor of either client returns an instance exactly when the
    [url] option is a non-empty string that [url.parse] reads as a URL of
    protocol [https:] with a host; the instance then holds the parsed URL as
    [cerbere_url] and its path as [base_path], and nothing else. *)
Theorem Cerbere_constructed_iff (options : jsval) (this : gmap string jsval) :
  (CerbereFxp.Cerbere options = Normal this
   <-> exists u protocol hostname pathname,
         get options "url" = Normal (JString u) /\ u <> EmptyString
         /\ get (url_parse u false) "protocol" = Normal protocol
         /\ loose_eq_string protocol "https:" = true
         /\ get (url_parse u false) "hostname" = Normal hostname
         /\ truthy hostname = true
         /\ get (url_parse u false) "pathname" = Normal pathname
         /\ this = <["base_path" := pathname]> (<["cerbere_url" := url_parse u false]> ∅))
  /\ CerbereCheerio.Cerbere options = CerbereFxp.Cerbere options.
Proof.
  split; [|reflexivity]. split.
  - apply Cerbere_Normal_inv.
  - intros (u & protocol & hostname & pathname & Hurl & Hne & Hp & Hhttps & Hh & Hth
            & Hpn & ->).
    pose proof (get_member_of_object _ _ _ Hurl) as Hopt.
    unfold CerbereFxp.Cerbere, js_or. rewrite Hopt, Hurl. simpl.
    assert (Htu : bool_decide (u = EmptyString) = false) by (apply bool_decide_eq_false; exact Hne).
    rewrite Htu. simpl. rewrite Hp. simpl. rewrite Hhttps. simpl. rewrite Hh. simpl.
    rewrite Hth. simpl. rewrite Hpn. reflexivity.
Qed.

(** X2: a missing options argument is no fault of its own: without a truthy
    [url] option, be the options undefined, null, or an object without the
    member, the constructor throws the Error that names the option (never a
    TypeError); a URL that is not of protocol [https:] is refused whatever
    its host. *)
Theorem Cerbere_configuration_errors (options : jsval) :
  (truthy options = false \/ (exists v, get options "url" = Normal v /\ truthy v = false) ->
   CerbereFxp.Cerbere options = Throw (Error "Required Cerbere option `url` missing."))
  /\ (forall u protocol,
        get options "url" = Normal (JString u) -> u <> EmptyString ->
        get (url_parse u false) "protocol" = Normal protocol ->
        loose_eq_string protocol "https:" = false ->
        CerbereFxp.Cerbere options = Throw (Error "Cerbere url supports only https protocol.")).
Proof.
  split.
  - intros [Hopt | (v & Hurl & Hv)]; unfold CerbereFxp.Cerbere, js_or.
    + rewrite Hopt. reflexivity.
    + destruct (truthy options) eqn:Hopt.
      * rewrite Hurl. simpl. rewrite Hv. reflexivity.
      * reflexivity.
  - intros u protocol Hurl Hne Hp Hhttps.
    pose proof (get_member_of_object _ _ _ Hurl) as Hopt.
    unfold CerbereFxp.Cerbere, js_or. rewrite Hopt, Hurl. simpl.
    assert (Htu : bool_decide (u = EmptyString) = false) by (apply bool_decide_eq_false; exact Hne).
    rewrite Htu. simpl. rewrite Hp. simpl. rewrite Hhttps. reflexivity.
Qed.
End Constructor.

(** ** The answers of the SOAP/SAML client *)

Section Dispatch.
Context `{Platform}.

Lemma path_app (v w : jsval) (names names' : list string) :
  path v names = Normal w -> path v (names ++ names') = path w names'.
Proof.
  revert v. induction names as [|k names IH]; intros v Hp; simpl in *.
  - injection Hp as ->. reflexivity.
  - destruct (get v k) as [v'|e]; simpl in *; [apply IH, Hp | discriminate Hp].
Qed.

(** Past the status and the subject, the listener parses the attributes. *)
Lemma dispatch_of_statement (document statement userId elemAttributes : jsval)
    (ticket : string) :
  saml_statement document statement ->
  path statement ["Subject"; "NameIdentifier"; "#text"] = Normal userId ->
  truthy userId = true ->
  get statement "Attribute" = Normal elemAttributes ->
  CerbereFxp.dispatch document ticket
  = (attributes ← CerbereFxp.parseAttributes elemAttributes;
     Normal (cb_success userId
               {| ext_username := userId; ext_attributes := attributes;
                  ext_ticket := ticket |})).
Proof.
  intros (elemResponse & assertions & assertion & Hresp & Hstatus & Hass & Hfirst & Hstmt)
    Huser Htruthy Hattr.
  apply path_cons in Hresp as (envelope & Henv & Hresp).
  apply path_cons in Hresp as (body & Hbody & Hresp).
  apply path_cons in Hresp as (r & Hr & Hresp). simpl in Hresp. injection Hresp as ->.
  apply path_cons in Hstatus as (status & Hst & Hstatus).
  apply path_cons in Hstatus as (code & Hcode & Hstatus).
  apply path_cons in Hstatus as (value & Hvalue & Hstatus). simpl in Hstatus.
  injection Hstatus as ->.
  apply path_cons in Huser as (subject & Hsubj & Huser).
  apply path_cons in Huser as (nameId & HnameId & Huser).
  apply path_cons in Huser as (u & Hu & Huser). simpl in Huser. injection Huser as ->.
  unfold CerbereFxp.dispatch.
  rewrite Henv; simpl. rewrite Hbody; simpl. rewrite Hr; simpl. rewrite Hst; simpl.
  rewrite Hcode; simpl. rewrite Hvalue; simpl.
  rewrite Hass; simpl. rewrite Hfirst; simpl. rewrite Hstmt; simpl.
  rewrite Hsubj; simpl. rewrite HnameId; simpl. rewrite Hu; simpl.
  rewrite Htruthy; simpl. rewrite Hattr; simpl. reflexivity.
Qed.

(** X3: whenever the listener reports success, the status of the answer is
    the success sentinel, the user name is the truthy text of the name
    identifier of the first assertion, the [extended] argument repeats that
    name and the ticket of the call, and its attributes are those parsed from
    the attribute list of that assertion. *)
Theorem dispatch_success_invariant (document username : jsval) (ext : extended)
    (ticket : string) :
  CerbereFxp.dispatch document ticket = Normal (cb_success username ext) ->
  truthy username = true
  /\ ext_username ext = username
  /\ ext_ticket ext = ticket
  /\ exists statement elemAttributes,
       saml_statement document statement
       /\ path statement ["Subject"; "NameIdentifier"; "#text"] = Normal username
       /\ get statement "Attribute" = Normal elemAttributes
       /\ CerbereFxp.parseAttributes elemAttributes = Normal (ext_attributes ext).
Proof.
  unfold CerbereFxp.dispatch. intros Hd.
  destruct (get document "Envelope") as [envelope|] eqn:Henv; simpl in Hd; [|discriminate Hd].
  destruct (get envelope "Body") as [body|] eqn:Hbody; simpl in Hd; [|discriminate Hd].
  destruct (get body "Response") as [resp|] eqn:Hresp; simpl in Hd; [|discriminate Hd].
  destruct (get resp "Status") as [status|] eqn:Hst; simpl in Hd; [|discriminate Hd].
  destruct (get status "StatusCode") as [sc|] eqn:Hsc; simpl in Hd; [|discriminate Hd].
  destruct (get sc "@_Value") as [value|] eqn:Hvalue; simpl in Hd; [|discriminate Hd].
  destruct (CerbereFxp.is_success value) eqn:Hsucc.
  2:{ destruct (get sc "#text"); simpl in Hd; discriminate Hd. }
  destruct (get resp "Assertion") as [assertions|] eqn:Hass; simpl in Hd; [|discriminate Hd].
  destruct (get_index assertions 0) as [assertion|] eqn:Hfirst; simpl in Hd;
    [|discriminate Hd].
  destruct (get assertion "AttributeStatement") as [statement|] eqn:Hstmt; simpl in Hd;
    [|discriminate Hd].
  destruct (get statement "Subject") as [subject|] eqn:Hsubj; simpl in Hd; [|discriminate Hd].
  destruct (get subject "NameIdentifier") as [nameId|] eqn:Hname; simpl in Hd;
    [|discriminate Hd].
  destruct (get nameId "#text") as [userId|] eqn:Hu; simpl in Hd; [|discriminate Hd].
  destruct (truthy userId) eqn:Htruthy; simpl in Hd; [|discriminate Hd].
  destruct (get statement "Attribute") as [elemAttributes|] eqn:Hattr; simpl in Hd;
    [|discriminate Hd].
  destruct (CerbereFxp.parseAttributes elemAttributes) as [attributes|] eqn:Hparse;
    simpl in Hd; [|discriminate Hd].
  injection Hd as <- <-. simpl.
  assert (Hv : value = JString "ns2:Success").
  { destruct value; simpl in Hsucc; try discriminate Hsucc.
    apply bool_decide_eq_true in Hsucc. congruence. }
  subst value.
  repeat split; try assumption.
  exists statement, elemAttributes. repeat split; try assumption.
  - exists resp, assertions, assertion. simpl.
    rewrite Henv; simpl. rewrite Hbody; simpl. rewrite Hresp; simpl.
    rewrite Hst; simpl. rewrite Hsc; simpl. rewrite Hvalue; simpl.
    repeat split; assumption.
  - simpl. rewrite Hsubj; simpl. rewrite Hname; simpl. rewrite Hu. reflexivity.
Qed.

(** X4: an answer whose status value is anything but the string of the
    success sentinel is reported as a failure, with a message made of the
    status value and of the text of the status code; the assertions are not
    read. *)
Theorem dispatch_status_failure (document statusCode code text : jsval)
    (ticket : string) :
  path document ["Envelope"; "Body"; "Response"; "Status"; "StatusCode"] = Normal statusCode ->
  get statusCode "@_Value" = Normal code ->
  code <> JString "ns2:Success" ->
  get statusCode "#text" = Normal text ->
  CerbereFxp.dispatch document ticket
  = Normal (cb_failure
              (Error ("Validation failed [" ++ to_string code ++ "]: " ++ to_string text))).
Proof.
  intros Hpath Hcode Hne Htext.
  apply path_cons in Hpath as (envelope & Henv & Hpath).
  apply path_cons in Hpath as (body & Hbody & Hpath).
  apply path_cons in Hpath as (resp & Hresp & Hpath).
  apply path_cons in Hpath as (status & Hst & Hpath).
  apply path_cons in Hpath as (sc & Hsc & Hpath). simpl in Hpath. injection Hpath as ->.
  unfold CerbereFxp.dispatch.
  rewrite Henv; simpl. rewrite Hbody; simpl. rewrite Hresp; simpl. rewrite Hst; simpl.
  rewrite Hsc; simpl. rewrite Hcode; simpl.
  assert (Hs : CerbereFxp.is_success code = false).
  { destruct code; try reflexivity. simpl. apply bool_decide_eq_false. congruence. }
  rewrite Hs. simpl. rewrite Htext. reflexivity.
Qed.

(** X5: a success answer whose name identifier has an empty or missing text
    is reported as the failure No userId?, whatever its attributes are: they
    are not parsed. *)
Theorem dispatch_without_subject (document statement userId : jsval) (ticket : string) :
  saml_statement document statement ->
  path statement ["Subject"; "NameIdentifier"; "#text"] = Normal userId ->
  truthy userId = false ->
  CerbereFxp.dispatch document ticket = Normal (cb_failure (Error "No userId?")).
Proof.
  intros (elemResponse & assertions & assertion & Hresp & Hstatus & Hass & Hfirst & Hstmt)
    Huser Htruthy.
  apply path_cons in Hresp as (envelope & Henv & Hresp).
  apply path_cons in Hresp as (body & Hbody & Hresp).
  apply path_cons in Hresp as (r & Hr & Hresp). simpl in Hresp. injection Hresp as ->.
  apply path_cons in Hstatus as (status & Hst & Hstatus).
  apply path_cons in Hstatus as (code & Hcode & Hstatus).
  apply path_cons in Hstatus as (value & Hvalue & Hstatus). simpl in Hstatus.
  injection Hstatus as ->.
  apply path_cons in Huser as (subject & Hsubj & Huser).
  apply path_cons in Huser as (nameId & HnameId & Huser).
  apply path_cons in Huser as (u & Hu & Huser). simpl in Huser. injection Huser as ->.
  unfold CerbereFxp.dispatch.
  rewrite Henv; simpl. rewrite Hbody; simpl. rewrite Hr; simpl. rewrite Hst; simpl.
  rewrite Hcode; simpl. rewrite Hvalue; simpl.
  rewrite Hass; simpl. rewrite Hfirst; simpl. rewrite Hstmt; simpl.
  rewrite Hsubj; simpl. rewrite HnameId; simpl. rewrite Hu; simpl.
  rewrite Htruthy. reflexivity.
Qed.

(** X6: a success answer with a subject and without any [Attribute] member
    makes the listener throw a TypeError on the length of the list; the
    callback is not called. *)
Theorem dispatch_without_attributes (document statement userId : jsval)
    (ticket : string) :
  saml_statement document statement ->
  path statement ["Subject"; "NameIdentifier"; "#text"] = Normal userId ->
  truthy userId = true ->
  get statement "Attribute" = Normal JUndefined ->
  CerbereFxp.dispatch document ticket = Throw (cannot_read "length").
Proof.
  intros Hs Hu Ht Ha. rewrite (dispatch_of_statement _ _ _ _ _ Hs Hu Ht Ha). reflexivity.
Qed.

(** X7: when the [Attribute] member is a single element instead of an array
    (an object without length), the loop does not run: success is reported
    with an empty attribute bag, the element is lost. *)
Theorem dispatch_single_attribute_lost (document statement userId : jsval)
    (members : list (string * jsval)) (ticket : string) :
  saml_statement document statement ->
  path statement ["Subject"; "NameIdentifier"; "#text"] = Normal userId ->
  truthy userId = true ->
  get statement "Attribute" = Normal (JObject members) ->
  own_property "length" members = None ->
  CerbereFxp.dispatch document ticket
  = Normal (cb_success userId
              {| ext_username := userId; ext_attributes := ∅; ext_ticket := ticket |}).
Proof.
  intros Hs Hu Ht Ha Hlen. rewrite (dispatch_of_statement _ _ _ _ _ Hs Hu Ht Ha).
  unfold CerbereFxp.parseAttributes. simpl. rewrite Hlen. reflexivity.
Qed.



(** X9: one element that has a name and no [AttributeValue] member makes
    [parseAttributes] throw a TypeError, after well-formed elements and
    whatever follows it: no bag is returned. *)
Theorem parseAttributes_without_value (entries : list (option (string * jsval)))
    (before after : list jsval) (members : list (string * jsval)) (name : jsval) :
  Forall2 listed_element entries before ->
  own_property "@_AttributeName" members = Some name ->
  own_property "AttributeValue" members = None ->
  CerbereFxp.parseAttributes (JArray (before ++ JObject members :: after))
  = Throw (cannot_read "#text").
Proof.
  intros Hf Hname Hvalue.
  rewrite parseAttributes_array.
  assert (Hgen : forall entries before seen attributes,
             Forall2 listed_element entries before ->
             CerbereFxp.parseAttributes_loop
               (JArray (seen ++ before ++ JObject members :: after))
               (length (before ++ JObject members :: after)) (length seen) attributes
             = Throw (cannot_read "#text")).
  { clear entries before Hf.
    induction entries as [|entry entries IH]; intros before seen attributes Hf.
    - inversion Hf; subst. simpl.
      rewrite lookup_app_r by lia. rewrite Nat.sub_diag. simpl.
      rewrite Hname. simpl. rewrite Hvalue. reflexivity.
    - inversion Hf as [|? elem ? before' Helem Hrest]; subst.
      assert (Hget : get_index (JArray (seen ++ (elem :: before') ++ JObject members :: after))
                       (length seen) = Normal elem).
      { simpl. rewrite lookup_app_r by lia. rewrite Nat.sub_diag. reflexivity. }
      assert (Hnext : forall attributes',
                 CerbereFxp.parseAttributes_loop
                   (JArray (seen ++ (elem :: before') ++ JObject members :: after))
                   (length (before' ++ JObject members :: after)) (S (length seen))
                   attributes'
                 = Throw (cannot_read "#text")).
      { intros attributes'.
        specialize (IH before' (seen ++ [elem])%list attributes' Hrest).
        replace (seen ++ (elem :: before') ++ JObject members :: after)%list
          with ((seen ++ [elem]) ++ before' ++ JObject members :: after)%list
          by (rewrite <- app_assoc; reflexivity).
        replace (S (length seen)) with (length (seen ++ [elem]))
          by (rewrite length_app; simpl; lia).
        exact IH. }
      change (length ((elem :: before') ++ JObject members :: after))
        with (S (length (before' ++ JObject members :: after))).
      cbn [CerbereFxp.parseAttributes_loop]. rewrite Hget. simpl.
      destruct entry as [[n text]|].
      + destruct (attribute_element_step _ _ Helem)
          as (Hhas & Hn & value & Hv & Htext).
        rewrite Hhas. simpl. rewrite Hn. simpl. rewrite Hv. simpl. rewrite Htext. simpl.
        apply Hnext.
      + simpl in Helem. rewrite Helem. simpl. apply Hnext. }
  exact (Hgen entries before [] ∅ Hf).
Qed.
End Dispatch.

(** ** The loop of [parseAttributes] over an endless length *)

Section Endless.
Context `{Platform}.

Lemma own_property_member (k : string) (members : list (string * jsval)) :
  own_property k members <> None -> k ∈ map fst members.
Proof.
  induction members as [|[k' v] members IH]; simpl; [congruence|].
  case_bool_decide as Hk.
  - intros _. subst. left.
  - intros Hsome. right. apply IH, Hsome.
Qed.

(** Among the first indices, one more than an object has members, one is no
    member of it. *)
Lemma missing_index (members : list (string * jsval)) :
  exists i, (i <= length members)%nat
            /\ own_property (pretty (Z.of_nat i)) members = None.
Proof.
  set (absent := fun i : nat => own_property (pretty (Z.of_nat i)) members = None).
  destruct (decide (Exists absent (seq 0 (S (length members))))) as [Hex | Hall].
  - apply Exists_exists in Hex as (i & Hin & Hi).
    apply elem_of_seq in Hin. exists i. split; [lia | exact Hi].
  - exfalso. apply not_Exists_Forall in Hall; [|intros i; unfold absent; apply _].
    assert (Hsub : (fun i : nat => pretty (Z.of_nat i)) <$> seq 0 (S (length members))
                   ⊆+ map fst members).
    { apply NoDup_submseteq.
      - apply NoDup_fmap_2; [|apply NoDup_seq].
        intros i j Hij. apply (inj pretty) in Hij. lia.
      - intros k Hk. apply list_elem_of_fmap in Hk as (i & -> & Hi).
        apply own_property_member.
        rewrite Forall_forall in Hall. exact (Hall i Hi). }
    apply submseteq_length in Hsub.
    rewrite length_fmap, length_seq, length_map in Hsub. lia.
Qed.

(** A loop that throws within its rounds throws the same with more rounds. *)
Lemma loop_throw_stable (o : jsval) (count : nat) :
  forall (i : nat) (attributes : gmap string jsval) (e : error),
    CerbereFxp.parseAttributes_loop o count i attributes = Throw e ->
    forall extra,
      CerbereFxp.parseAttributes_loop o (count + extra) i attributes = Throw e.
Proof.
  induction count as [|count IH]; intros i attributes e Hloop extra;
    [discriminate Hloop|].
  cbn [CerbereFxp.parseAttributes_loop Nat.add] in *.
  destruct (get_index o i) as [elem|e1]; simpl in *; [|exact Hloop].
  destruct (hasOwnProperty elem "@_AttributeName") as [has|e2]; simpl in *;
    [|exact Hloop].
  match type of Hloop with
  | mbind _ ?step = _ => destruct step as [attributes'|e3]; simpl in *; [|exact Hloop]
  end.
  apply IH, Hloop.
Qed.

(** The loop does not pass an index that the object lacks. *)
Lemma loop_reaches_missing (members : list (string * jsval)) (i : nat) :
  own_property (pretty (Z.of_nat i)) members = None ->
  forall (count i0 : nat) (attributes : gmap string jsval),
    (i0 <= i < i0 + count)%nat ->
    exists e, CerbereFxp.parseAttributes_loop (JObject members) count i0 attributes
              = Throw e.
Proof.
  intros Hi. induction count as [|count IH]; intros i0 attributes Hrange; [lia|].
  cbn [CerbereFxp.parseAttributes_loop].
  destruct (decide (i0 = i)) as [-> | Hne].
  - simpl. rewrite Hi. simpl. eauto.
  - destruct (get_index (JObject members) i0) as [elem|e1]; simpl; [|eauto].
    destruct (hasOwnProperty elem "@_AttributeName") as [has|e2]; simpl; [|eauto].
    match goal with
    | |- exists e, mbind _ ?step = _ => destruct step as [attributes'|e3]; simpl; [|eauto]
    end.
    apply IH. lia.
Qed.

End Endless.

(** ** The exchange of the SOAP/SAML client *)

Section Exchange.
Context `{Platform}.

Lemma calls_app (done done' : list effect) :
  calls (done ++ done') = (calls done ++ calls done')%list.
Proof. unfold calls. apply omap_app. Qed.

(** The [data] events of a response: no callback, and a request to destroy
    the connection when the text has outgrown the ceiling. *)
Lemma deliver_data (ticket : string) (rest : list event) (chunks : list string) :
  forall response : string,
    exists ceilings,
      effects (CerbereFxp.deliver ticket response (map res_data chunks ++ rest))
      = (ceilings
         ++ effects (CerbereFxp.deliver ticket (received response chunks) rest))%list
      /\ fault (CerbereFxp.deliver ticket response (map res_data chunks ++ rest))
         = fault (CerbereFxp.deliver ticket (received response chunks) rest)
      /\ calls ceilings = []
      /\ (chunks <> [] ->
          1000000 < Z.of_nat (String.length (received response chunks)) ->
          destroy_connection ∈ ceilings).
Proof.
  induction chunks as [|chunk chunks IH]; intros response.
  - exists []. repeat split; try reflexivity. intros Hne. contradiction.
  - destruct (IH (response ++ chunk)) as (ceilings & Heff & Hfault & Hcalls & Hdestroy).
    cbn [map app CerbereFxp.deliver CerbereFxp.listener received fold_left].
    fold (received (response ++ chunk) chunks).
    cbn [effects fault]. rewrite Heff, Hfault.
    eexists. split; [apply app_assoc|]. split; [reflexivity|]. split.
    + rewrite calls_app, Hcalls.
      destruct (Z.ltb 1000000 (Z.of_nat (String.length (response ++ chunk))));
        reflexivity.
    + intros _ Hlong. destruct chunks as [|chunk' chunks].
      * apply elem_of_app. left. simpl in Hlong.
        apply Z.ltb_lt in Hlong. rewrite Hlong. apply list_elem_of_singleton. reflexivity.
      * apply elem_of_app. right. apply Hdestroy; [discriminate | exact Hlong].
Qed.

(** X10: the listeners of [validate] call the callback for every event that
    is no [data], and nothing holds them to one call.  A response that
    arrives in chunks and ends is parsed whole, whatever its length: the
    callback is called once, by the [end] listener, unless that listener
    throws; a text beyond the ceiling of 1000000 characters only makes the
    [data] listener ask for the connection to be destroyed.  Before the end,
    every [error] event of the request or of the response is handed to the
    callback as it is, each of them.  As long as no listener throws, the
    calls are as many as the events that are no [data]. *)
Theorem listeners_report_every_event (ticket : string) :
  (forall chunks,
     let text := received EmptyString chunks in
     let r := CerbereFxp.deliver ticket EmptyString (map res_data chunks ++ [res_end]) in
     match CerbereFxp.on_end text ticket with
     | Normal cb => calls (effects r) = [cb] /\ fault r = None
     | Throw e => calls (effects r) = [] /\ fault r = Some e
     end
     /\ (1000000 < Z.of_nat (String.length text) -> destroy_connection ∈ effects r))
  /\ (forall response events,
        Forall (fun ev => ev <> res_end) events ->
        let r := CerbereFxp.deliver ticket response events in
        calls (effects r) = omap error_callback events /\ fault r = None)
  /\ (forall response events,
        let r := CerbereFxp.deliver ticket response events in
        fault r = None ->
        length (calls (effects r)) = length (List.filter not_data events)).
Proof.
  split; [|split].
  - intros chunks text r.
    destruct (deliver_data ticket [res_end] chunks EmptyString)
      as (ceilings & Heff & Hfault & Hcalls & Hdestroy).
    fold text in Heff, Hfault, Hdestroy. fold r in Heff, Hfault.
    cbn [CerbereFxp.deliver CerbereFxp.listener] in Heff, Hfault.
    split.
    + rewrite Heff, Hfault, calls_app, Hcalls.
      destruct (CerbereFxp.on_end text ticket) as [cb|e]; split; reflexivity.
    + intros Hlong. rewrite Heff. apply elem_of_app. left. apply Hdestroy; [|exact Hlong].
      intros ->. unfold text in Hlong. simpl in Hlong. lia.
  - intros response events Hall. revert response.
    induction Hall as [|ev events Hev Hall IH]; intros response; [split; reflexivity|].
    cbn [CerbereFxp.deliver].
    destruct ev as [err|e|chunk|]; cbn [CerbereFxp.listener];
      try contradiction;
      destruct (IH response) as [Hcalls Hfault];
      try destruct (IH (response ++ chunk)) as [Hcalls' Hfault'];
      cbn [effects fault omap list_omap error_callback]; rewrite calls_app.
    + rewrite Hcalls. split; [reflexivity | exact Hfault].
    + rewrite Hcalls. split; [reflexivity | exact Hfault].
    + rewrite Hcalls'. split; [|exact Hfault'].
      destruct (Z.ltb 1000000 (Z.of_nat (String.length (response ++ chunk))));
        reflexivity.
  - intros response events. revert response.
    induction events as [|ev events IH]; intros response; [reflexivity|].
    cbn [CerbereFxp.deliver].
    destruct ev as [err|e|chunk|]; cbn [CerbereFxp.listener].
    + cbn [effects fault List.filter not_data]. intros Hf.
      rewrite calls_app, length_app, (IH response Hf). reflexivity.
    + cbn [effects fault List.filter not_data]. intros Hf.
      rewrite calls_app, length_app, (IH response Hf). reflexivity.
    + cbn [effects fault List.filter not_data]. intros Hf.
      rewrite calls_app, length_app, (IH (response ++ chunk) Hf).
      destruct (Z.ltb 1000000 (Z.of_nat (String.length (response ++ chunk))));
        reflexivity.
    + destruct (CerbereFxp.on_end response ticket) as [cb|e0];
        cbn [mbind completion_bind effects fault List.filter not_data].
      * intros Hf. rewrite calls_app, length_app, (IH response Hf). reflexivity.
      * intros Hf. discriminate Hf.
Qed.

(** X29: a response that arrives in chunks and ends, and whose whole text the
    parser rejects, is reported by the [end] listener of [part_000] with one
    call of the callback, [callback(error, false)] with the error of the
    parser; no listener throws and the dispatch is not reached. *)
Theorem fxp_parse_error_is_reported (ticket : string) (chunks : list string)
    (error : error) :
  fxp_parse (received EmptyString chunks) = inl error ->
  CerbereFxp.on_end (received EmptyString chunks) ticket = Normal (cb_failure error)
  /\ calls (effects (CerbereFxp.deliver ticket EmptyString
                       (map res_data chunks ++ [res_end])))
     = [cb_failure error]
  /\ fault (CerbereFxp.deliver ticket EmptyString (map res_data chunks ++ [res_end]))
     = None.
Proof.
  intros Hparse.
  assert (Hend : CerbereFxp.on_end (received EmptyString chunks) ticket
                 = Normal (cb_failure error)).
  { unfold CerbereFxp.on_end. rewrite Hparse. reflexivity. }
  destruct (deliver_data ticket [res_end] chunks EmptyString)
    as (ceilings & Heff & Hfault & Hcalls & _).
  cbn [CerbereFxp.deliver CerbereFxp.listener] in Heff, Hfault.
  rewrite Hend in Heff, Hfault. simpl in Heff, Hfault.
  split; [exact Hend|]. split.
  - rewrite Heff, calls_app, Hcalls. reflexivity.
  - exact Hfault.
Qed.

(** X11: on a constructed client, [validate] sends one request: a POST with
    the six fixed headers to the host and the port of the configured URL, at
    the path that [url.format] makes of the path of that URL followed by
    [/samlValidate] and of the query [TARGET=service]; the body is the SOAP
    envelope of the ticket. *)
Theorem validate_request (options : jsval) (this : gmap string jsval) (u : string)
    (ticket service requestId issueInstant : string) :
  CerbereFxp.Cerbere options = Normal this ->
  get options "url" = Normal (JString u) ->
  exists host port pathname,
    get (url_parse u false) "hostname" = Normal host
    /\ get (url_parse u false) "port" = Normal port
    /\ get (url_parse u false) "pathname" = Normal pathname
    /\ CerbereFxp.validate this ticket service requestId issueInstant
       = Normal
           {| sent_options :=
                {| ro_host := host; ro_port := port;
                   ro_path :=
                     url_format
                       (JObject [("pathname",
                                  JString (to_string pathname ++ "/samlValidate"));
                                 ("query", JObject [("TARGET", JString service)])]);
                   ro_method := "POST";
                   ro_headers :=
                     [ ("soapaction", "http://www.oasis-open.org/committees/security");
                       ("content-type", "text/xml; charset=utf-8");
                       ("accept", "text/xml");
                       ("connection", "keep-alive");
                       ("cache-control", "no-cache");
                       ("pragma", "no-cache") ] |};
              sent_body := soapEnvelope requestId issueInstant ticket |}.
Proof.
  intros Hc Hurl. pose proof (get_member_of_object _ _ _ Hurl) as Hopt.
  unfold CerbereFxp.Cerbere, js_or in Hc. rewrite Hopt, Hurl in Hc. simpl in Hc.
  destruct (bool_decide (u = EmptyString)); simpl in Hc; [discriminate Hc|].
  destruct (get (url_parse u false) "protocol") as [protocol|]; simpl in Hc;
    [|discriminate Hc].
  destruct (loose_eq_string protocol "https:"); simpl in Hc; [|discriminate Hc].
  destruct (get (url_parse u false) "hostname") as [hostname|] eqn:Hh; simpl in Hc;
    [|discriminate Hc].
  destruct (truthy hostname); simpl in Hc; [|discriminate Hc].
  destruct (get (url_parse u false) "pathname") as [pathname|] eqn:Hpn; simpl in Hc;
    [|discriminate Hc].
  injection Hc as <-.
  destruct (get_defined _ _ "port" _ Hh) as [port Hport].
  exists hostname, port, pathname. repeat split; try assumption.
  unfold CerbereFxp.validate.
  replace (js_get (<["base_path":=pathname]> (<["cerbere_url":=url_parse u false]> ∅))
             "cerbere_url") with (url_parse u false) by reflexivity.
  replace (js_get (<["base_path":=pathname]> (<["cerbere_url":=url_parse u false]> ∅))
             "base_path") with pathname by reflexivity.
  rewrite Hh, Hport. reflexivity.
Qed.
End Exchange.

(** ** The windows of the retry *)

Lemma retry_token_floor (u : Z) : retry_token u = (u + 30000) / 60000.
Proof.
  unfold retry_token. rewrite Math_round_quotient by lia.
  replace (2 * u + 60000) with (2 * (u + 30000)) by lia.
  rewrite Z.div_mul_cancel_l by lia. reflexivity.
Qed.

Lemma retry_token_bounds (u j : Z) :
  retry_token u = j <-> 60000 * j - 30000 <= u < 60000 * j + 30000.
Proof.
  rewrite retry_token_floor. split.
  - intros <-. pose proof (Z.div_mod (u + 30000) 60000 ltac:(lia)) as Hdm.
    pose proof (Z.mod_pos_bound (u + 30000) 60000 ltac:(lia)). lia.
  - intros Hb. symmetry.
    apply (Z.div_unique (u + 30000) 60000 j (u + 30000 - 60000 * j)); lia.
Qed.

(** X12: the token of a time is [k] exactly for the minute of times that
    starts half a minute before [60000 * k]; later times have no smaller
    token, times of one token are less than a minute apart, and times a
    minute or more apart have different tokens. *)
Theorem retry_token_window (t k : Z) :
  (retry_token t = k <-> 60000 * k - 30000 <= t < 60000 * k + 30000)
  /\ (forall t', t <= t' -> retry_token t <= retry_token t')
  /\ (forall t', retry_token t = retry_token t' -> Z.abs (t' - t) < 60000).
Proof.
  split; [apply retry_token_bounds|]. split.
  - intros t' Hle. rewrite !retry_token_floor. apply Z.div_le_mono; lia.
  - intros t' Heq.
    pose proof (proj1 (retry_token_bounds t (retry_token t)) eq_refl) as H1.
    pose proof (proj1 (retry_token_bounds t' (retry_token t)) (eq_sym Heq)) as H2. lia.
Qed.

Lemma number_eqb_integer (a b : Z) :
  number_eqb (integer a) (integer b) = true <-> a = b.
Proof.
  unfold integer, number_eqb. rewrite Qeq_bool_iff, inject_Z_injective. reflexivity.
Qed.

Section Windows.
Context `{Platform}.

End Windows.

(** ** A redirect that changes nothing *)


Section Unchanged.
Context `{Platform}.

(** X14: when the request URL holds no old marker and nowhere a [ticket]
    parameter that the pattern matches, and the request carries no marker,
    a failed validation redirects to the request URL itself: the URL that
    has just failed is requested again, with the same ticket and no marker. *)
Theorem retry_redirects_to_same_url (req : Request) (now : Z) (err : error) :
  req_query req !! "_cas_retry" = None ->
  matches_nowhere cas_retry_here (request_url req) EmptyString = true ->
  matches_nowhere (ticket_here (to_string (JNumber (retry_token now)))) (request_url req)
    EmptyString = true ->
  CerbereStrategy.retry req now err = [redirect (request_url req) 307].
Proof.
  intros Hq Hmarker Hticket. unfold CerbereStrategy.retry, js_get. rewrite Hq. simpl.
  unfold CerbereStrategy.retry_url.
  rewrite (replace_first_nowhere cas_retry_here _ eq_refl Hmarker).
  rewrite (replace_first_nowhere _ _ eq_refl Hticket). reflexivity.
Qed.

(** X15: in [authenticate] of [lib/strategy.js], for a request and for one
    call [validated] that [validate] makes of its callback, the code that
    runs (the reading of the request and, when there is a ticket, the body of
    the callback on that call) ends either in exactly one action of passport
    and no exception, or in an exception and no action; [verify] is reached
    only when the call reports a success, [fail] only when it reports an
    error or a failure.  The property is per call of the callback: how many
    calls [validate] makes is the matter of X10. *)
Theorem authenticate_one_action (self : Strategy) (req : Request) (now : Z)
    (validated : callback) :
  let o := CerbereStrategy.authenticate self req now validated in
  ((exists a, performed o = [a] /\ thrown o = None)
   \/ (performed o = [] /\ exists e, thrown o = Some e))
  /\ (forall r username profile,
        verify r username profile ∈ performed o ->
        exists ext, validated = cb_success username ext)
  /\ (forall info,
        fail info ∈ performed o -> validated = cb_error info \/ validated = cb_failure info).
Proof.
  unfold CerbereStrategy.authenticate.
  destruct (CerbereStrategy.ticket_and_service req) as [[ticket service]|e].
  2:{ simpl. split; [right; eauto|]. split; intros; exfalso; eapply not_elem_of_nil; eauto. }
  destruct (truthy ticket); simpl.
  2:{ split; [left; eauto|].
      split; intros; match goal with Hin : _ ∈ [_] |- _ =>
        apply list_elem_of_singleton in Hin; discriminate Hin end. }
  assert (Hretry : forall err,
             (exists a, CerbereStrategy.retry req now err = [a])
             /\ (forall r u p, verify r u p ∉ CerbereStrategy.retry req now err)
             /\ (forall info, fail info ∈ CerbereStrategy.retry req now err -> info = err)).
  { intros err. unfold CerbereStrategy.retry.
    destruct (negb _); (split; [eauto|]); split; intros;
      try (intros Hin; apply list_elem_of_singleton in Hin; discriminate Hin);
      match goal with Hin : _ ∈ [_] |- _ =>
        apply list_elem_of_singleton in Hin; congruence end. }
  destruct validated as [err|err|username ext]; simpl.
  - destruct (Hretry err) as ((a & Ha) & Hv & Hf). rewrite Ha in *.
    split; [left; eauto|]. split.
    + intros r u p Hin. exfalso. exact (Hv r u p Hin).
    + intros info Hin. left. f_equal. symmetry. apply Hf, Hin.
  - destruct (Hretry err) as ((a & Ha) & Hv & Hf). rewrite Ha in *.
    split; [left; eauto|]. split.
    + intros r u p Hin. exfalso. exact (Hv r u p Hin).
    + intros info Hin. right. f_equal. symmetry. apply Hf, Hin.
  - destruct (st_propertyMap self) as [pm|]; simpl.
    + destruct (normalize pm _ _) as [profile|e]; simpl.
      * split; [left; eauto|]. split.
        -- intros r u p Hin. apply list_elem_of_singleton in Hin. injection Hin as _ <- _.
           eauto.
        -- intros info Hin. apply list_elem_of_singleton in Hin. discriminate Hin.
      * split; [right; eauto|].
        split; intros; exfalso; eapply not_elem_of_nil; eauto.
    + split; [right; eauto|].
      split; intros; exfalso; eapply not_elem_of_nil; eauto.
Qed.
End Unchanged.

(** ** More of the normaliser *)

Section Unconfigured.
Context `{Platform}.

Lemma normalize_needs_lists (propertyMap : PropertyMap) (id0 : jsval)
    (attributes : gmap string jsval) :
  ~ lists_configured propertyMap ->
  normalize propertyMap id0 attributes = Throw (cannot_read "forEach").
Proof.
  intros Hno. unfold normalize.
  destruct (map_name _ _) as [name a1].
  destruct (pm_emails propertyMap) as [emails|] eqn:He; [simpl|reflexivity].
  destruct (map_emails _ _) as [em a2].
  destruct (pm_telephones propertyMap) as [telephones|] eqn:Ht; [simpl|reflexivity].
  destruct (map_telephones _ _) as [tel a3].
  destruct (pm_adresses propertyMap) as [adresses|] eqn:Ha; [simpl|reflexivity].
  destruct (pm_organizations propertyMap) as [organizations|] eqn:Ho; [simpl|reflexivity].
  exfalso. apply Hno. unfold lists_configured. rewrite He, Ht, Ha, Ho. eauto.
Qed.

(** X16: a strategy without property map, or with a map that lacks one of
    the four list sections, cannot finish a login: after a validation that
    succeeded, both versions of [authenticate] end in a TypeError and never
    call [verify], whatever the attributes are. *)
Theorem authenticate_needs_all_lists (self : Strategy) (login : string -> string)
    (req : Request) (now : Z) (username : jsval) (ext : extended) (ticket : jsval)
    (service : string) :
  CerbereStrategy.ticket_and_service req = Normal (ticket, service) ->
  truthy ticket = true ->
  match st_propertyMap self with
  | None => True
  | Some propertyMap => ~ lists_configured propertyMap
  end ->
  let e := match st_propertyMap self with
           | None => cannot_read "hasOwnProperty"
           | Some _ => cannot_read "forEach"
           end in
  CerbereStrategy.authenticate self req now (cb_success username ext)
  = {| performed := []; thrown := Some e |}
  /\ CerbereStrategy.authenticate_async self login req now (inr (ext_attributes ext))
     = {| performed := []; thrown := Some e |}.
Proof.
  intros Hts Hticket Hpm.
  unfold CerbereStrategy.authenticate, CerbereStrategy.authenticate_async.
  rewrite Hts, Hticket. simpl.
  destruct (st_propertyMap self) as [pm|]; simpl.
  - rewrite !(normalize_needs_lists pm _ _ Hpm). split; reflexivity.
  - split; reflexivity.
Qed.

End Unconfigured.

(** *** The [name] section and the additional properties *)

Section Mapped.
Context `{Platform}.

Lemma map_name_reads (a0 : gmap string jsval) (names : list (string * string))
    (nameKey key : string) :
  NoDup (map fst names) ->
  (nameKey, key) ∈ names ->
  forall (name a : gmap string jsval),
    a ⊆ a0 -> answers a0 key (js_get (map_name names (name, a)).1 nameKey).
Proof.
  induction names as [|[nameKey' key'] names IH]; intros Hnd Hin name a Hsub.
  - inversion Hin.
  - simpl in Hnd. apply NoDup_cons in Hnd as [Hfresh Hnd].
    apply elem_of_cons in Hin as [Heq | Hin].
    + injection Heq as <- <-. simpl.
      rewrite map_name_untouched by exact Hfresh.
      unfold js_get at 1. rewrite lookup_insert_eq. simpl.
      apply answers_sub, Hsub.
    + simpl. apply IH; [exact Hnd | exact Hin | apply delete_sub, Hsub].
Qed.

Lemma sub_keeps_deleted (a b : gmap string jsval) (k : string) :
  a ⊆ b -> b !! k = None -> a !! k = None.
Proof. intros Hsub Hb. eapply lookup_weaken_None; eassumption. Qed.

Lemma map_name_deletes (names : list (string * string)) (k : string) :
  k ∈ map fst names ->
  forall (name a : gmap string jsval), (map_name names (name, a)).2 !! k = None.
Proof.
  induction names as [|[nameKey key] names IH]; intros Hin name a.
  - inversion Hin.
  - simpl in Hin. apply elem_of_cons in Hin as [-> | Hin]; simpl.
    + eapply sub_keeps_deleted; [apply map_name_sub; reflexivity|].
      apply lookup_delete_eq.
    + apply IH, Hin.
Qed.

Lemma map_emails_sub (emails : list KeyType) :
  forall (acc : list ValueType) (a b : gmap string jsval),
    a ⊆ b -> (map_emails emails (acc, a)).2 ⊆ b.
Proof.
  induction emails as [|email emails IH]; intros acc a b Hsub; [exact Hsub|].
  simpl. apply IH, delete_sub, Hsub.
Qed.

Lemma map_telephones_sub (telephones : list KeyType) :
  forall (acc : list ValueType) (a b : gmap string jsval),
    a ⊆ b -> (map_telephones telephones (acc, a)).2 ⊆ b.
Proof.
  induction telephones as [|telephone telephones IH]; intros acc a b Hsub; [exact Hsub|].
  simpl. apply IH, delete_sub, Hsub.
Qed.

Lemma map_emails_deletes (emails : list KeyType) (k : string) :
  k ∈ map kt_key emails ->
  forall (acc : list ValueType) (a : gmap string jsval),
    (map_emails emails (acc, a)).2 !! k = None.
Proof.
  induction emails as [|email emails IH]; intros Hin acc a.
  - inversion Hin.
  - simpl in Hin. apply elem_of_cons in Hin as [-> | Hin]; simpl.
    + eapply sub_keeps_deleted; [apply map_emails_sub; reflexivity|].
      apply lookup_delete_eq.
    + apply IH, Hin.
Qed.

Lemma map_telephones_deletes (telephones : list KeyType) (k : string) :
  k ∈ map (fun telephone => to_string (kt_type telephone)) telephones ->
  forall (acc : list ValueType) (a : gmap string jsval),
    (map_telephones telephones (acc, a)).2 !! k = None.
Proof.
  induction telephones as [|telephone telephones IH]; intros Hin acc a.
  - inversion Hin.
  - simpl in Hin. apply elem_of_cons in Hin as [-> | Hin]; simpl.
    + eapply sub_keeps_deleted; [apply map_telephones_sub; reflexivity|].
      apply lookup_delete_eq.
    + apply IH, Hin.
Qed.

Lemma map_others_lookup (a : gmap string jsval) (others : list (string * string)) :
  forall (acc : gmap string jsval) (property : string) (v : jsval),
    map_others a others acc !! property = Some v ->
    acc !! property = Some v
    \/ ((property ∉ profile_keys)
        /\ exists key, (property, key) ∈ others /\ v = js_get a key).
Proof.
  induction others as [|[property' key'] others IH]; intros acc property v Hl.
  - left. exact Hl.
  - simpl in Hl.
    destruct (bool_decide (property' ∈ profile_keys)) eqn:Hpk; simpl in Hl.
    + destruct (IH _ _ _ Hl) as [Hacc | (Hn & key & Hin & Hv)]; [left; exact Hacc|].
      right. split; [exact Hn|]. exists key. split; [right; exact Hin | exact Hv].
    + destruct (bool_decide (is_Some (acc !! property'))) eqn:Hsome; simpl in Hl.
      * destruct (IH _ _ _ Hl) as [Hacc | (Hn & key & Hin & Hv)]; [left; exact Hacc|].
        right. split; [exact Hn|]. exists key. split; [right; exact Hin | exact Hv].
      * destruct (IH _ _ _ Hl) as [Hacc | (Hn & key & Hin & Hv)].
        -- destruct (decide (property' = property)) as [-> | Hne].
           ++ rewrite lookup_insert_eq in Hacc. injection Hacc as <-.
              right. split; [apply bool_decide_eq_false in Hpk; exact Hpk|].
              exists key'. split; [left | reflexivity].
           ++ rewrite lookup_insert_ne in Hacc by exact Hne. left. exact Hacc.
        -- right. split; [exact Hn|]. exists key. split; [right; exact Hin | exact Hv].
Qed.



End Mapped.

(** ** The redirects *)

Section Redirects.
Context `{Platform}.

(** X20: on a constructed client, [logout] of [part_000] and [redirect] of
    [lib/cerbere.js] never throw: they answer with status 307, a Location and
    a link to the same URL, and end the response.  The URL of [logout] is
    the configured URL followed by [/logout?service=] for a return URL with
    [doRedirect], by [/logout?url=] for a return URL without it, and by
    [/logout] alone when there is no return URL, whatever [doRedirect] is. *)
Theorem client_redirects (options : jsval) (this : gmap string jsval)
    (returnUrl doRedirect service : jsval) :
  (CerbereFxp.Cerbere options = Normal this ->
   exists href,
     get (js_get this "cerbere_url") "href" = Normal href
     /\ let location :=
          to_string href
          ++ (if truthy returnUrl
              then (if truthy doRedirect then "/logout?service=" else "/logout?url=")
                   ++ encodeURIComponent (to_string returnUrl)
              else "/logout") in
        CerbereFxpLogout.logout this returnUrl doRedirect
        = Normal [writeHead 307 location; write (anchor location "CAS logout");
                  end_response])
  /\ (CerbereCheerio.Cerbere options = Normal this ->
      exists href,
        get (js_get this "cerbere_url") "href" = Normal href
        /\ let location :=
             to_string href ++ "/login?service=" ++ encodeURIComponent (to_string service) in
           CerbereCheerioTags.redirect this service
           = Normal [writeHead 307 location; write (anchor location "CAS login");
                     end_response]).
Proof.
  split; intros Hc.
  - destruct (fxp_Cerbere_instance _ _ Hc) as (cu & pn & -> & Hcu).
    destruct (Hcu "href") as [href Hhref]. exists href.
    unfold CerbereFxpLogout.logout.
    replace (js_get (<["base_path":=pn]> (<["cerbere_url":=cu]> ∅)) "cerbere_url")
      with cu by reflexivity.
    split; [exact Hhref|]. rewrite Hhref. simpl.
    destruct (truthy returnUrl), (truthy doRedirect); reflexivity.
  - destruct (fxp_Cerbere_instance _ _ Hc) as (cu & pn & -> & Hcu).
    destruct (Hcu "href") as [href Hhref]. exists href.
    unfold CerbereCheerioTags.redirect.
    replace (js_get (<["base_path":=pn]> (<["cerbere_url":=cu]> ∅)) "cerbere_url")
      with cu by reflexivity.
    split; [exact Hhref|]. rewrite Hhref. reflexivity.
Qed.

(** X21: whatever the class of the client, the constructor of the strategy checks the verify callback first,
    then the [casURL] option, then the [serviceURL] option, and throws the
    TypeError of the first that is missing; a function in the place of the
    options is taken for the verify callback, and the [casURL] is then the
    one that is missing.  (These are the cases of the test suite.) *)
Theorem new_Strategy_errors (Cerbere : jsval -> completion (gmap string jsval))
    (verify_ : argument jsval) :
  (forall options,
     CerbereStrategySetup.truthy_argument verify_ = false ->
     CerbereStrategySetup.new_Strategy Cerbere (a_value options) verify_
     = Throw (TypeError "CerbereStrategy requires a verify callback"))
  /\ CerbereStrategySetup.new_Strategy Cerbere a_function verify_
     = Throw (TypeError "CerbereStrategy requires a casURL option")
  /\ (forall options,
        CerbereStrategySetup.truthy_argument verify_ = true -> truthy (casURL options) = false ->
        CerbereStrategySetup.new_Strategy Cerbere (a_value (Some options)) verify_
        = Throw (TypeError "CerbereStrategy requires a casURL option"))
  /\ (forall options,
        CerbereStrategySetup.truthy_argument verify_ = true -> truthy (casURL options) = true ->
        truthy (serviceURL options) = false ->
        CerbereStrategySetup.new_Strategy Cerbere (a_value (Some options)) verify_
        = Throw (TypeError "CerbereStrategy requires a serviceURL option")).
Proof.
  unfold CerbereStrategySetup.new_Strategy. repeat split.
  - intros options ->. reflexivity.
  - intros options -> ->. reflexivity.
  - intros options -> -> ->. reflexivity.
Qed.

(** X22: with the client of [part_000], a strategy that the constructor
    returns is named cerbere, was given
    options with a truthy verify callback and a truthy [serviceURL], and has
    a [casURL] that is a non-empty string of protocol [https:] with a host;
    it keeps the options as they were given and holds the client built for
    that URL. *)
Theorem new_Strategy_constructed (options : argument (option StrategyOptions))
    (verify_ : argument jsval) (self : StrategyInstance) :
  CerbereStrategySetup.new_Strategy CerbereFxp.Cerbere options verify_ = Normal self ->
  si_name self = "cerbere"
  /\ CerbereStrategySetup.truthy_argument verify_ = true
  /\ si_verify self = verify_
  /\ exists o u protocol hostname,
       options = a_value (Some o)
       /\ casURL o = JString u /\ u <> EmptyString
       /\ get (url_parse u false) "protocol" = Normal protocol
       /\ loose_eq_string protocol "https:" = true
       /\ get (url_parse u false) "hostname" = Normal hostname
       /\ truthy hostname = true
       /\ si_url self = JString u
       /\ si_service self = serviceURL o /\ truthy (serviceURL o) = true
       /\ si_propertyMap self = propertyMap o
       /\ si_passReqToCallback self = passReqToCallback o
       /\ CerbereFxp.Cerbere (JObject [("url", JString u)]) = Normal (si_cerbere self).
Proof.
  unfold CerbereStrategySetup.new_Strategy. intros Hn.
  destruct options as [|[o|]].
  - simpl in Hn. discriminate Hn.
  - destruct (CerbereStrategySetup.truthy_argument verify_) eqn:Hv; simpl in Hn; [|discriminate Hn].
    destruct (truthy (casURL o)) eqn:Hu; simpl in Hn; [|discriminate Hn].
    destruct (truthy (serviceURL o)) eqn:Hs; simpl in Hn; [|discriminate Hn].
    destruct (CerbereFxp.Cerbere (JObject [("url", casURL o)])) as [cerbere|] eqn:Hc;
      simpl in Hn; [|discriminate Hn].
    injection Hn as <-. simpl.
    destruct (Cerbere_Normal_inv _ _ Hc)
      as (u & protocol & hostname & pathname & Hurl & Hne & Hp & Hhttps & Hh & Hth & _ & _).
    simpl in Hurl. injection Hurl as Hurl.
    repeat split. exists o, u, protocol, hostname.
    rewrite Hurl in Hc. repeat split; try assumption; try reflexivity.
  - destruct (CerbereStrategySetup.truthy_argument verify_); simpl in Hn; discriminate Hn.
Qed.

(** X23: with the client of [part_000], [logout] of a constructed strategy closes the session first and
    then lets the client answer; with a return URL the redirect is the form
    that the server follows by itself ([/logout?service=]), without one the
    bare [/logout]: the form with a link back ([/logout?url=]) is never
    produced, and nothing throws. *)
Theorem strategy_logout_redirects (options : argument (option StrategyOptions))
    (verify_ : argument jsval) (self : StrategyInstance) (returnUrl : jsval) :
  CerbereStrategySetup.new_Strategy CerbereFxp.Cerbere options verify_ = Normal self ->
  exists href,
    get (js_get (si_cerbere self) "cerbere_url") "href" = Normal href
    /\ let location :=
         to_string href
         ++ (if truthy returnUrl
             then "/logout?service=" ++ encodeURIComponent (to_string returnUrl)
             else "/logout") in
       CerbereStrategySetup.logout CerbereFxpLogout.logout self returnUrl
       = {| steps := [session_logout; response (writeHead 307 location);
                      response (write (anchor location "CAS logout"));
                      response end_response];
            raised := None |}.
Proof.
  unfold CerbereStrategySetup.new_Strategy. intros Hn.
  destruct options as [|[o|]].
  - simpl in Hn. discriminate Hn.
  - destruct (CerbereStrategySetup.truthy_argument verify_); simpl in Hn; [|discriminate Hn].
    destruct (truthy (casURL o)); simpl in Hn; [|discriminate Hn].
    destruct (truthy (serviceURL o)); simpl in Hn; [|discriminate Hn].
    destruct (CerbereFxp.Cerbere (JObject [("url", casURL o)])) as [cerbere|] eqn:Hc;
      simpl in Hn; [|discriminate Hn].
    injection Hn as <-. simpl.
    destruct (fxp_Cerbere_instance _ _ Hc) as (cu & pn & -> & Hcu).
    destruct (Hcu "href") as [href Hhref]. exists href.
    replace (js_get (<["base_path":=pn]> (<["cerbere_url":=cu]> ∅)) "cerbere_url")
      with cu by reflexivity.
    split; [exact Hhref|].
    unfold CerbereStrategySetup.logout, CerbereFxpLogout.logout. simpl.
    replace (js_get (<["base_path":=pn]> (<["cerbere_url":=cu]> ∅)) "cerbere_url")
      with cu by reflexivity.
    rewrite Hhref.
    destruct (truthy returnUrl); reflexivity.
  - destruct (CerbereStrategySetup.truthy_argument verify_); simpl in Hn; discriminate Hn.
Qed.
End Redirects.

(** ** The attributes of a tagged-element answer *)

Section Tagged.
Variable toLowerCase : string -> string.

Lemma tagged_loop_app (before after : list (string * string)) :
  forall acc : gmap string (list string),
    CerbereCheerioTags.parseAttributes_loop toLowerCase acc (before ++ after)
    = (acc' ← CerbereCheerioTags.parseAttributes_loop toLowerCase acc before;
       CerbereCheerioTags.parseAttributes_loop toLowerCase acc' after).
Proof.
  induction before as [|child before IH]; intros acc; [reflexivity|].
  cbn [app CerbereCheerioTags.parseAttributes_loop].
  destruct (CerbereCheerioTags.parseAttributes_step toLowerCase acc child) as [acc'|e];
    simpl; [apply IH | reflexivity].
Qed.

Lemma tagged_loop_lookup (children : list (string * string)) :
  Forall (own_named (CerbereCheerioTags.attrName toLowerCase)) children ->
  forall acc : gmap string (list string),
    exists bag,
      CerbereCheerioTags.parseAttributes_loop toLowerCase acc children = Normal bag
      /\ forall k,
           bag !! k
           = if bool_decide (k = "#text") then acc !! k
             else match texts_of (CerbereCheerioTags.attrName toLowerCase) k children with
                  | [] => acc !! k
                  | texts => Some (default [] (acc !! k) ++ texts)%list
                  end.
Proof.
  induction 1 as [|[name text] children Hchild Hall IH]; intros acc.
  - exists acc. split; [reflexivity|]. intros k. simpl.
    destruct (bool_decide (k = "#text")); reflexivity.
  - unfold own_named in Hchild. simpl in Hchild.
    set (n := CerbereCheerioTags.attrName toLowerCase name) in *.
    assert (Hstep : exists acc',
               CerbereCheerioTags.parseAttributes_step toLowerCase acc (name, text)
               = Normal acc'
               /\ forall k,
                    acc' !! k
                    = if bool_decide (n = "#text") then acc !! k
                      else if bool_decide (n = k)
                           then Some (default [] (acc !! k) ++ [text])%list
                           else acc !! k).
    { unfold CerbereCheerioTags.parseAttributes_step. fold n.
      destruct (decide (n = "#text")) as [Hn | Hn].
      - rewrite !(bool_decide_eq_true_2 _ Hn). eauto.
      - rewrite !(bool_decide_eq_false_2 _ Hn).
        destruct (acc !! n) as [values|] eqn:Hacc;
          [|rewrite (bool_decide_eq_false_2 _ Hchild)];
          (eexists; split; [reflexivity|]; intros k;
           destruct (decide (n = k)) as [Hk | Hk];
           [rewrite (bool_decide_eq_true_2 _ Hk), <- Hk, lookup_insert_eq, Hacc
           |rewrite (bool_decide_eq_false_2 _ Hk), lookup_insert_ne by exact Hk];
           reflexivity). }
    destruct Hstep as (acc' & Hstep & Hacc').
    destruct (IH acc') as (bag & Hloop & Hbag).
    exists bag. split.
    + cbn [CerbereCheerioTags.parseAttributes_loop]. rewrite Hstep. exact Hloop.
    + intros k. rewrite Hbag, Hacc'. cbn [texts_of]. fold n.
      destruct (decide (k = "#text")) as [Hk | Hk];
        destruct (decide (n = "#text")) as [Hn | Hn];
        destruct (decide (n = k)) as [Hnk | Hnk];
        rewrite ?(bool_decide_eq_true_2 _ Hk), ?(bool_decide_eq_false_2 _ Hk),
          ?(bool_decide_eq_true_2 _ Hn), ?(bool_decide_eq_false_2 _ Hn),
          ?(bool_decide_eq_true_2 _ Hnk), ?(bool_decide_eq_false_2 _ Hnk);
        try congruence; try reflexivity.
      destruct (texts_of _ k children) as [|t ts]; [reflexivity|].
      simpl. rewrite <- app_assoc. reflexivity.
Qed.

Lemma texts_of_none (name_of : string -> string) (k : string)
    (children : list (string * string)) :
  Forall (fun child => name_of child.1 <> k) children ->
  texts_of name_of k children = [].
Proof.
  induction 1 as [|[name text] children Hchild Hall IH]; [reflexivity|].
  simpl in *. rewrite (bool_decide_eq_false_2 _ Hchild). exact IH.
Qed.

(** X24: [parseAttributes] of [lib/cerbere.js] gathers under each attribute
    name (the tag in lower case, its first [cas:] removed) the texts of all
    the children of that name, in the order of the document and with
    repetitions, as long as no name is that of a member of
    [Object.prototype]; a name that no child has is not in the bag, and
    neither is [#text].  The first child with the name of such a member
    (constructor, say, or __proto__) makes it throw a TypeError: the bag
    inherits a value under that name, which has no [push]. *)
Theorem tagged_parseAttributes_accumulates (children : list (string * string)) :
  (Forall (own_named (CerbereCheerioTags.attrName toLowerCase)) children ->
   exists bag,
     CerbereCheerioTags.parseAttributes toLowerCase children = Normal bag
     /\ forall k,
          bag !! k
          = if bool_decide (k = "#text") then None
            else match texts_of (CerbereCheerioTags.attrName toLowerCase) k children with
                 | [] => None
                 | texts => Some texts
                 end)
  /\ (forall before name text after,
        children = (before ++ (name, text) :: after)%list ->
        Forall (own_named (CerbereCheerioTags.attrName toLowerCase)) before ->
        CerbereCheerioTags.attrName toLowerCase name ∈ object_prototype_members ->
        CerbereCheerioTags.parseAttributes toLowerCase children
        = Throw (TypeError "attributes[attrName].push is not a function")).
Proof.
  split.
  - intros Hall. destruct (tagged_loop_lookup children Hall ∅) as (bag & Hloop & Hbag).
    exists bag. split; [exact Hloop|]. intros k. rewrite Hbag, lookup_empty. reflexivity.
  - intros before name text after -> Hall Hmember.
    destruct (tagged_loop_lookup before Hall ∅) as (bag & Hloop & Hbag).
    unfold CerbereCheerioTags.parseAttributes. rewrite tagged_loop_app, Hloop. simpl.
    set (n := CerbereCheerioTags.attrName toLowerCase name) in *.
    assert (Htext : n <> "#text").
    { intros Heq. rewrite Heq in Hmember. unfold object_prototype_members in Hmember.
      repeat (apply elem_of_cons in Hmember as [Hmember | Hmember];
              [discriminate Hmember|]).
      apply elem_of_nil in Hmember. exact Hmember. }
    assert (Hnone : bag !! n = None).
    { rewrite Hbag, (bool_decide_eq_false_2 _ Htext), lookup_empty.
      rewrite texts_of_none; [reflexivity|].
      eapply Forall_impl; [exact Hall|]. intros child Hown Heq.
      apply Hown. fold n in Heq |- *. unfold n in Heq.
      rewrite Heq. exact Hmember. }
    fold n. rewrite (bool_decide_eq_false_2 _ Htext), Hnone.
    rewrite (bool_decide_eq_true_2 _ Hmember). reflexivity.
Qed.
End Tagged.

(** ** An attribute for one entry of [emails] *)

Section Emails.
Context `{Platform}.

Lemma map_emails_acc (emails : list KeyType) :
  forall (acc : list ValueType) (a : gmap string jsval),
    (map_emails emails (acc, a)).1 = (acc ++ (map_emails emails ([], a)).1)%list.
Proof.
  induction emails as [|email emails IH]; intros acc a.
  - simpl. rewrite app_nil_r. reflexivity.
  - simpl. rewrite (IH (acc ++ _)%list), (IH [_]). rewrite <- app_assoc. reflexivity.
Qed.

Lemma map_emails_second_reading (emails : list KeyType) :
  forall (a : gmap string jsval) (i j : nat) (first second : KeyType),
    (i < j)%nat ->
    emails !! i = Some first -> emails !! j = Some second ->
    kt_key first = kt_key second ->
    exists e, (map_emails emails ([], a)).1 !! j = Some e
              /\ e_value e = JUndefined /\ e_type e = kt_type second.
Proof.
  induction emails as [|email emails IH]; intros a i j first second Hlt Hi Hj Hkey.
  - discriminate Hi.
  - destruct j as [|j]; [lia|]. simpl in Hj.
    cbn [map_emails fold_left]. change (fold_left ?f emails ?st) with (map_emails emails st).
    rewrite map_emails_acc. simpl.
    destruct i as [|i]; simpl in Hi.
    + injection Hi as ->.
      destruct (map_emails_entries (delete (kt_key first) a) emails [] []
                  (delete (kt_key first) a) (reflexivity _) (List.Forall2_nil _))
        as [Hall _].
      simpl in Hall.
      destruct (Forall2_lookup_r _ _ _ _ _ Hall Hj) as (e & He & Htype & Hvalue).
      exists e. split; [exact He|]. split; [|exact Htype].
      destruct Hvalue as [Hu | Hsome]; [exact Hu|].
      rewrite <- Hkey, lookup_delete_eq in Hsome. discriminate Hsome.
    + apply (IH (delete (kt_key email) a) i j first second); [lia | assumption..].
Qed.


End Emails.

(** ** The further properties at concrete inputs *)

Lemma statement_document_found (statement : jsval) :
  saml_statement (statement_document statement) statement.
Proof.
  eexists _, (JArray [JObject [("AttributeStatement", statement)];
                      authentication_assertion]),
    (JObject [("AttributeStatement", statement)]).
  repeat split; reflexivity.
Defined.

Lemma bob_statement_found : saml_statement bob_document bob_statement.
Proof. exact (statement_document_found bob_statement). Defined.

(** The answer for bob, read back from the success it gives. *)
Lemma bob_success_read_back :
  truthy (JString "bob") = true
  /\ exists statement elemAttributes,
       saml_statement bob_document statement
       /\ path statement ["Subject"; "NameIdentifier"; "#text"] = Normal (JString "bob")
       /\ get statement "Attribute" = Normal elemAttributes
       /\ CerbereFxp.parseAttributes (H := bob_platform) elemAttributes
          = Normal bob_attributes.
Proof.
  destruct (dispatch_success_invariant (H := bob_platform) bob_document (JString "bob")
              {| ext_username := JString "bob"; ext_attributes := bob_attributes;
                 ext_ticket := "ST-1" |} "ST-1" eq_refl) as (Ht & _ & _ & Hs).
  split; [exact Ht | exact Hs].
Defined.

(** The failure of the specification: code INVALID_TICKET, text ticket expired. *)
Lemma invalid_ticket_failure :
  CerbereFxp.dispatch (H := bob_platform) (status_document failure_status) "ST-1"
  = Normal (cb_failure (Error "Validation failed [INVALID_TICKET]: ticket expired")).
Proof.
  apply (dispatch_status_failure (H := bob_platform) (status_document failure_status)
           failure_status (JString "INVALID_TICKET") (JString "ticket expired") "ST-1").
  - reflexivity.
  - reflexivity.
  - discriminate.
  - reflexivity.
Defined.

(** A name identifier without text has no [#text]. *)
Lemma empty_subject_failure :
  CerbereFxp.dispatch (H := bob_platform)
    (statement_document (JObject [("Subject", silent_subject)])) "ST-1"
  = Normal (cb_failure (Error "No userId?")).
Proof.
  apply (dispatch_without_subject (H := bob_platform) _
           (JObject [("Subject", silent_subject)]) JUndefined "ST-1").
  - apply statement_document_found.
  - reflexivity.
  - reflexivity.
Defined.

Lemma success_without_attributes_throws :
  CerbereFxp.dispatch (H := bob_platform)
    (statement_document (JObject [("Subject", bob_subject)])) "ST-1"
  = Throw (cannot_read "length").
Proof.
  apply (dispatch_without_attributes (H := bob_platform) _
           (JObject [("Subject", bob_subject)]) (JString "bob") "ST-1").
  - apply statement_document_found.
  - reflexivity.
  - reflexivity.
  - reflexivity.
Defined.

Lemma single_attribute_of_bob_lost :
  CerbereFxp.dispatch (H := bob_platform) lone_attribute_document "ST-1"
  = Normal (cb_success (JString "bob")
              {| ext_username := JString "bob"; ext_attributes := ∅;
                 ext_ticket := "ST-1" |}).
Proof.
  apply (dispatch_single_attribute_lost (H := bob_platform) _ lone_bob_statement
           (JString "bob")
           [("@_AttributeName", JString "UTILISATEUR.MEL");
            ("AttributeValue", text_element (JString "b@x.com"))] "ST-1").
  - apply statement_document_found.
  - reflexivity.
  - reflexivity.
  - reflexivity.
  - reflexivity.
Defined.

Lemma attribute_of_listed (name : string) (text : jsval) :
  listed_element (Some (name, text)) (attribute_of name (text_element text)).
Proof.
  exists [("@_AttributeName", JString name); ("AttributeValue", text_element text)],
    (text_element text).
  repeat split; reflexivity.
Defined.

Lemma bob_attribute_listed :
  listed_element (Some ("UTILISATEUR.MEL", JString "b@x.com")) bob_attribute.
Proof. exact (attribute_of_listed "UTILISATEUR.MEL" (JString "b@x.com")). Defined.




Lemma attribute_without_value_throws :
  CerbereFxp.parseAttributes (H := bob_platform)
    (JArray [bob_attribute; valueless_attribute; bob_attribute])
  = Throw (cannot_read "#text").
Proof.
  apply (parseAttributes_without_value (H := bob_platform)
           [Some ("UTILISATEUR.MEL", JString "b@x.com")] [bob_attribute] [bob_attribute]
           [("@_AttributeName", JString "UTILISATEUR.TEL")] (JString "UTILISATEUR.TEL")).
  - constructor; [apply bob_attribute_listed | constructor].
  - reflexivity.
  - reflexivity.
Defined.

(** An error of the response and then an error of the request: two calls. *)
Lemma two_errors_two_calls :
  calls (effects (CerbereFxp.deliver (H := bob_platform) "ST-1" EmptyString
                    [res_data "<a>"; res_error (Error "aborted");
                     req_error (Error "socket hang up")]))
  = [cb_error (Error "aborted"); cb_error (Error "socket hang up")].
Proof.
  apply (proj1 (proj2 (listeners_report_every_event (H := bob_platform) "ST-1"))
           EmptyString
           [res_data "<a>"; res_error (Error "aborted"); req_error (Error "socket hang up")]).
  repeat constructor; discriminate.
Defined.

(** A text in two chunks that the parser rejects. *)
Lemma unclosed_answer_reported :
  calls (effects (CerbereFxp.deliver (H := rejecting_platform) "ST-1" EmptyString
                    [res_data "<a><b>"; res_data "</a>"; res_end]))
  = [cb_failure (Error "Closing tag expected")].
Proof.
  exact (proj1 (proj2 (fxp_parse_error_is_reported (H := rejecting_platform) "ST-1"
                         ["<a><b>"; "</a>"] (Error "Closing tag expected") eq_refl))).
Defined.

Lemma example_request_sent :
  exists host port pathname,
    get example_url "hostname" = Normal host
    /\ get example_url "port" = Normal port
    /\ get example_url "pathname" = Normal pathname
    /\ CerbereFxp.validate (H := bob_platform)
         (<["base_path" := JString "/cas/public"]> (<["cerbere_url" := example_url]> ∅))
         "ST-1" "https://app.example.org/cb" "id" "now"
       = Normal
           {| sent_options :=
                {| ro_host := host; ro_port := port;
                   ro_path :=
                     url_format (Platform := bob_platform)
                       (JObject [("pathname",
                                  JString (to_string (H := bob_platform) pathname
                                           ++ "/samlValidate"));
                                 ("query",
                                  JObject [("TARGET", JString "https://app.example.org/cb")])]);
                   ro_method := "POST";
                   ro_headers :=
                     [ ("soapaction", "http://www.oasis-open.org/committees/security");
                       ("content-type", "text/xml; charset=utf-8");
                       ("accept", "text/xml");
                       ("connection", "keep-alive");
                       ("cache-control", "no-cache");
                       ("pragma", "no-cache") ] |};
              sent_body := soapEnvelope "id" "now" "ST-1" |}.
Proof.
  exact (validate_request (H := bob_platform) example_options
           (<["base_path" := JString "/cas/public"]> (<["cerbere_url" := example_url]> ∅))
           "https://sso.example.org/cas/public" "ST-1" "https://app.example.org/cb"
           "id" "now" eq_refl eq_refl).
Defined.


Lemma unmatched_ticket_requested_again :
  CerbereStrategy.retry (H := plus_platform) (example_request "/cb?ticket=%2Bx" [])
    1800000 stale_ticket
  = [redirect "/cb?ticket=%2Bx" 307].
Proof.
  apply (retry_redirects_to_same_url (H := plus_platform)
           (example_request "/cb?ticket=%2Bx" []) 1800000 stale_ticket);
    reflexivity.
Defined.

Lemma bare_strategy_cannot_log_in :
  CerbereStrategy.authenticate (H := bob_platform) bare_strategy
    (example_request "/cb?ticket=ST-1" []) 0
    (cb_success (JString "bob") (bob_extended bob_attributes))
  = {| performed := []; thrown := Some (cannot_read "hasOwnProperty") |}.
Proof.
  apply (proj1 (authenticate_needs_all_lists (H := bob_platform) bare_strategy
                  (fun service => service) (example_request "/cb?ticket=ST-1" []) 0
                  (JString "bob") (bob_extended bob_attributes) (JString "ST-1")
                  "https://app.example.org/cb" eq_refl eq_refl I)).
Defined.


Lemma readme_names_distinct :
  NoDup (map fst [("civilite", "UTILISATEUR.CIVILITE"); ("givenName", "UTILISATEUR.PRENOM");
                  ("familyName", "UTILISATEUR.NOM")]).
Proof.
  simpl. repeat (apply NoDup_cons; split;
                 [intros Hin; repeat (apply elem_of_cons in Hin as [Hin | Hin];
                                      [discriminate Hin|]);
                  apply elem_of_nil in Hin; exact Hin|]).
  apply NoDup_nil. exact I.
Defined.



Lemma example_client_redirects :
  exists this,
    CerbereFxp.Cerbere (H := bob_platform) example_options = Normal this
    /\ CerbereFxpLogout.logout (H := bob_platform) this JUndefined (JBool true)
       = Normal [writeHead 307 "https://sso.example.org/cas/public/logout";
                 write (anchor "https://sso.example.org/cas/public/logout" "CAS logout");
                 end_response].
Proof.
  eexists. split; [reflexivity|].
  destruct (proj1 (client_redirects (H := bob_platform) example_options _ JUndefined
                     (JBool true) JUndefined) eq_refl) as (href & Hhref & Hlogout).
  injection Hhref as <-. exact Hlogout.
Defined.

(** The strategy of the test suite, with normal options. *)
Lemma test_strategy_is_named_cerbere :
  exists self,
    CerbereStrategySetup.new_Strategy (CerbereFxp.Cerbere (H := bob_platform))
      (a_value (Some example_options_object)) a_function = Normal self
    /\ si_name self = "cerbere".
Proof.
  eexists. split; [reflexivity|].
  apply (new_Strategy_constructed (H := bob_platform)
           (a_value (Some example_options_object)) a_function _ eq_refl).
Defined.

Lemma test_strategy_logout :
  exists self,
    CerbereStrategySetup.new_Strategy (CerbereFxp.Cerbere (H := bob_platform))
      (a_value (Some example_options_object)) a_function = Normal self
    /\ CerbereStrategySetup.logout (CerbereFxpLogout.logout (H := bob_platform)) self
         (JString "https://www.example.com/")
       = {| steps :=
              [session_logout;
               response (writeHead 307
                 "https://sso.example.org/cas/public/logout?service=https://www.example.com/");
               response (write (anchor
                 "https://sso.example.org/cas/public/logout?service=https://www.example.com/"
                 "CAS logout"));
               response end_response];
            raised := None |}.
Proof.
  eexists. split; [reflexivity|].
  destruct (strategy_logout_redirects (H := bob_platform)
              (a_value (Some example_options_object)) a_function _
              (JString "https://www.example.com/") eq_refl) as (href & Hhref & Hlogout).
  injection Hhref as <-. exact Hlogout.
Defined.


(** A tagged-element answer with a repeated tag. *)
Lemma tagged_memberOf :
  exists bag,
    CerbereCheerioTags.parseAttributes lower
      [("cas:surname", "Smith"); ("cas:memberOf", "CN=Staff");
       ("cas:givenName", "John"); ("cas:memberOf", "CN=Spanish Department")]
    = Normal bag
    /\ bag !! "memberof" = Some ["CN=Staff"; "CN=Spanish Department"].
Proof.
  destruct (proj1 (tagged_parseAttributes_accumulates lower
                     [("cas:surname", "Smith"); ("cas:memberOf", "CN=Staff");
                      ("cas:givenName", "John"); ("cas:memberOf", "CN=Spanish Department")]))
    as (bag & Hparse & Hbag).
  - repeat constructor; unfold own_named, object_prototype_members; simpl;
      intros Hin; repeat (apply elem_of_cons in Hin as [Hin | Hin]; [discriminate Hin|]);
      apply elem_of_nil in Hin; exact Hin.
  - exists bag. split; [exact Hparse|]. rewrite Hbag. reflexivity.
Defined.

(** A tag with the name of a member of [Object.prototype]. *)
Example tagged_constructor :
  CerbereCheerioTags.parseAttributes lower
    [("cas:surname", "Smith"); ("cas:constructor", "x")]
  = Throw (TypeError "attributes[attrName].push is not a function").
Proof. reflexivity. Qed.

Lemma example_client_constructed :
  CerbereFxp.Cerbere (H := bob_platform) example_options
  = Normal (<["base_path" := JString "/cas/public"]> (<["cerbere_url" := example_url]> ∅)).
Proof.
  apply (proj2 (proj1 (Cerbere_constructed_iff (H := bob_platform) example_options _))).
  exists "https://sso.example.org/cas/public", (JString "https:"),
    (JString "sso.example.org"), (JString "/cas/public").
  repeat split; try reflexivity. discriminate.
Defined.

Lemma http_url_refused :
  CerbereFxp.Cerbere (H := url_platform http_url)
    (JObject [("url", JString "http://sso.example.org/cas/public")])
  = Throw (Error "Cerbere url supports only https protocol.").
Proof.
  apply (proj2 (Cerbere_configuration_errors (H := url_platform http_url) _)
           "http://sso.example.org/cas/public" (JString "http:")).
  - reflexivity.
  - discriminate.
  - reflexivity.
  - reflexivity.
Defined.

Lemma token_of_the_example : retry_token 1810000 = 30.
Proof. apply (proj2 (proj1 (retry_token_window 1810000 30))). lia. Defined.

Lemma bob_is_verified_once :
  let o := CerbereStrategy.authenticate (H := bob_platform)
             (example_strategy readme_propertyMap) (example_request "/cb?ticket=ST-1" [])
             0 (cb_success (JString "bob") (bob_extended bob_attributes)) in
  (exists a, performed o = [a] /\ thrown o = None)
  \/ (performed o = [] /\ exists e, thrown o = Some e).
Proof.
  exact (proj1 (authenticate_one_action (H := bob_platform)
                  (example_strategy readme_propertyMap)
                  (example_request "/cb?ticket=ST-1" []) 0
                  (cb_success (JString "bob") (bob_extended bob_attributes)))).
Defined.

(** The cases of the test suite that throw. *)
Lemma test_strategy_without_verify :
  CerbereStrategySetup.new_Strategy (CerbereFxp.Cerbere (H := bob_platform))
    (a_value (Some example_options_object)) (a_value JUndefined)
  = Throw (TypeError "CerbereStrategy requires a verify callback").
Proof.
  apply (proj1 (new_Strategy_errors (CerbereFxp.Cerbere (H := bob_platform))
                  (a_value JUndefined))).
  reflexivity.
Defined.
